(** * DiscussionTopicMenuView

    A shallow embedding of
    [common/static/common/js/discussion/views/discussion_topic_menu_view.js]:
    the Backbone view that renders the topic selector of a new discussion
    post, keeps the current topic and announces topic changes.

    JavaScript values, the category maps (objects reached through
    references), the DOM subtree of the view and the jQuery sets the view
    works on are modelled as data; the three underscore templates, the
    browser's HTML parser and its serializer, the property names every
    object inherits and the selector engine's reading of unusual ids are
    parameters of the development. *)

From Stdlib Require Import ZArith.
From stdpp Require Import base option list strings gmap pretty.

Local Open Scope string_scope.
Local Open Scope list_scope.

(** ** JavaScript values *)

Module JS.

(** The integers a JavaScript number holds exactly, every one of which
    prints with all its digits. *)
Definition is_safe_integer (z : Z) : bool := (Z.abs z <=? 9007199254740991)%Z.

Class SafeInteger (z : Z) : Prop := safe_integer : Is_true (is_safe_integer z).
#[global] Hint Extern 0 (SafeInteger _) => exact I : typeclass_instances.

(** The values the view stores and tests.  A number is a safe integer. *)
Inductive value : Type :=
| Undefined
| Null
| Bool (b : bool)
| Num (z : Z) {safe : SafeInteger z}
| Str (s : string).

#[global] Instance value_eq_dec : EqDecision value.
Proof.
  intros [| |b1|z1 safe1|s1] [| |b2|z2 safe2|s2];
    try (right; discriminate); try (left; reflexivity).
  - destruct (decide (b1 = b2)) as [->|Hne]; [left; reflexivity|right; congruence].
  - destruct (decide (z1 = z2)) as [->|Hne]; [left|right; congruence].
    f_equal. apply (proof_irrel (A := Is_true (is_safe_integer z2))).
  - destruct (decide (s1 = s2)) as [->|Hne]; [left; reflexivity|right; congruence].
Defined.

(** ToBoolean: what [if (v)] tests. *)
Definition truthy (v : value) : bool :=
  match v with
  | Undefined | Null => false
  | Bool b => b
  | Num z => negb (Z.eqb z 0)
  | Str s => negb (String.eqb s EmptyString)
  end.

(** ToString: what [v + ''] and ['' + v] produce. *)
Definition to_string (v : value) : string :=
  match v with
  | Undefined => "undefined"
  | Null => "null"
  | Bool true => "true"
  | Bool false => "false"
  | Num z => pretty z
  | Str s => s
  end.

(** How a call ends: it returns, it throws, or the model's recursion
    budget was too small to follow it to its end. *)
Inductive outcome (A : Type) : Type :=
| Done (a : A)
| Throw
| OutOfFuel.
Arguments Done {A} a.
Arguments Throw {A}.
Arguments OutOfFuel {A}.

(** A failure ends the sequence of statements it occurs in. *)
#[global] Instance outcome_bind : MBind outcome := fun A B f x =>
  match x with
  | Done a => f a
  | Throw => Throw
  | OutOfFuel => OutOfFuel
  end.

(** [_.map(list, f)] with a callback that may throw: elements are visited
    from left to right and the first failure ends the loop. *)
Fixpoint map_each {A B} (f : A -> outcome B) (l : list A) : outcome (list B) :=
  match l with
  | [] => Done []
  | a :: l' =>
      b ← f a; bs ← map_each f l'; Done (b :: bs)
  end.

(** [array.join('')] on an array of strings. *)
Definition join (l : list string) : string := foldr String.append EmptyString l.

End JS.

(** ** Category maps *)

(** A leaf topic: [{id: ..., is_cohorted: ...}]. *)
Record entry : Type := Entry {
  entry_id : JS.value;
  is_cohorted : JS.value
}.

(** Objects are reached through references. *)
Definition ref : Type := positive.

(** A category map object: [children] is an array of names, [entries] and
    [subcategories] are objects used as maps from names; the values of
    [subcategories] are references to further category maps. *)
Record category : Type := Category {
  children : list string;
  entries : gmap string entry;
  subcategories : gmap string ref
}.

(** The object store.  A reference that is not bound stands for a value that
    is not an object ([undefined]): reading [.children] from it throws. *)
Abbreviation heap := (gmap ref category).

Section Model.

(** [_.template($('#new-post-menu-entry-template').html())], applied to
    [{text, id, is_cohorted}]. *)
Variable entryTemplate : string -> JS.value -> JS.value -> string.
(** [_.template($('#new-post-menu-category-template').html())], applied to
    [{text, entries}]. *)
Variable categoryTemplate : string -> string -> string.
(** The property names every object inherits ([toString], [constructor]
    and the like, as the engine has them).  [map.subcategories[name]] finds
    them when [name] is no key of [subcategories]; what it finds has no
    [children]. *)
Variable inherited : string -> bool.

(** The callback of [_.map(map.children, ...)] in [renderCategoryMap];
    [recurse] is [this.renderCategoryMap].  [_.has] asks for a key of
    [entries] itself; [map.subcategories[name]] is a plain property read:
    for a key of [subcategories] the call recurses into its value, for an
    inherited name it is given a value without [children] and returns the
    empty string, for any other name it is given [undefined] and throws. *)
Definition renderChild (recurse : ref -> JS.outcome string)
    (map : category) (name : string) : JS.outcome string :=
  match entries map !! name with
  | Some entry =>
      JS.Done (entryTemplate name (entry_id entry) (is_cohorted entry))
  | None =>
      match subcategories map !! name with
      | Some sub =>
          html ← recurse sub;
          JS.Done (categoryTemplate name html)
      | None =>
          if inherited name then JS.Done (categoryTemplate name EmptyString)
          else JS.Throw
      end
  end.

(** The body of [renderCategoryMap] once [map] is known to be an object. *)
Definition renderMap (recurse : ref -> JS.outcome string)
    (map : category) : JS.outcome string :=
  frags ← JS.map_each (renderChild recurse map) (children map);
  JS.Done (JS.join frags).

(** [renderCategoryMap(map)].  The source recurses without any bound; the
    model counts nested calls and gives up with [OutOfFuel] when [fuel]
    calls are not enough. *)
Fixpoint renderCategoryMap (fuel : nat) (h : heap) (map : ref)
    : JS.outcome string :=
  match fuel with
  | O => JS.OutOfFuel
  | S fuel' =>
      match h !! map with
      | Some m => renderMap (renderCategoryMap fuel' h) m
      | None => JS.Throw
      end
  end.


(** ** The DOM subtree of the view *)

(** An [<option>] element: its [data-discussion-id] attribute, the value
    jQuery's [.data('discussion-id')] gives for it (jQuery fills it from
    the attribute, turning for instance the digit 0 into the number 0 and
    leaving the empty attribute the empty string, and keeps it with the
    element), its [selected] property and its content as [.html()] returns
    it. *)
Record option_element : Type := OptionElement {
  discussion_id_attr : option string;
  discussion_id_data : JS.value;
  selected : bool;
  inner_html : string
}.

(** The elements the view tells apart: options, option groups with their
    [label] attribute, and any other element (the root [div], the
    [select]).  An option holds text only, as in every parsed document. *)
#[warnings="-register-all"] Inductive node : Type :=
| OptionNode (o : option_element)
| OptgroupNode (label : option string) (kids : list node)
| ElementNode (kids : list node).

Definition child_nodes (n : node) : list node :=
  match n with
  | OptionNode _ => []
  | OptgroupNode _ kids | ElementNode kids => kids
  end.

(** An element is named by the child indices that lead to it from the
    root of the view; a jQuery object is a list of elements. *)
Definition path : Type := list nat.
Definition jq : Type := list path.

Fixpoint node_at (root : node) (p : path) : option node :=
  match p with
  | [] => Some root
  | i :: p' =>
      match child_nodes root !! i with
      | Some kid => node_at kid p'
      | None => None
      end
  end.

(** Document order: an element comes before its descendants and before
    its later siblings. *)
Fixpoint path_compare (p q : path) : comparison :=
  match p, q with
  | [], [] => Eq
  | [], _ :: _ => Lt
  | _ :: _, [] => Gt
  | i :: p', j :: q' =>
      match Nat.compare i j with
      | Eq => path_compare p' q'
      | c => c
      end
  end.

Fixpoint insert_in_order (p : path) (l : jq) : jq :=
  match l with
  | [] => [p]
  | q :: l' =>
      match path_compare p q with
      | Lt => p :: q :: l'
      | Eq => q :: l'
      | Gt => q :: insert_in_order p l'
      end
  end.

(** [jQuery.uniqueSort]: duplicates removed, document order. *)
Definition uniqueSort (l : jq) : jq := foldr insert_in_order [] l.

(** The option elements at [n] or below it, in document order, named from
    [n]. *)
Fixpoint options_in (n : node) : list path :=
  match n with
  | OptionNode _ => [[]]
  | OptgroupNode _ kids | ElementNode kids =>
      (fix visit (i : nat) (kids : list node) : list path :=
         match kids with
         | [] => []
         | kid :: kids' => (cons i <$> options_in kid) ++ visit (S i) kids'
         end) 0 kids
  end.

(** The option elements at or below the siblings [kids], the first of
    which is child number [i]: the inner loop of [options_in]. *)
Fixpoint options_in_kids (i : nat) (kids : list node) : list path :=
  match kids with
  | [] => []
  | kid :: kids' => (cons i <$> options_in kid) ++ options_in_kids (S i) kids'
  end.

(** The option elements strictly below [n]: an option has no element
    below it, and any other element is not an option itself. *)
Definition option_descendants (n : node) : list path :=
  match n with
  | OptionNode _ => []
  | OptgroupNode _ _ | ElementNode _ => options_in n
  end.

Definition option_at (root : node) (p : path) : option option_element :=
  match node_at root p with
  | Some (OptionNode o) => Some o
  | _ => None
  end.

Definition is_selected (root : node) (p : path) : bool :=
  match option_at root p with
  | Some o => selected o
  | None => false
  end.

(** [context.find(selector)] for the selectors ['option'] ([only_selected]
    false) and ['option:selected']: the matching descendants of every
    element of [context]; with several context elements jQuery sorts the
    result and removes duplicates. *)
Definition find_option (only_selected : bool) (root : node) (context : jq) : jq :=
  let below (p : path) : jq :=
    match node_at root p with
    | Some n =>
        filter (fun q => only_selected = false ∨ is_selected root q)
               (app p <$> option_descendants n)
    | None => []
    end in
  let ret := context ≫= below in
  if decide (1 < length context) then uniqueSort ret else ret.

(** The ancestors of an element, nearest first. *)
Definition ancestors (p : path) : list path :=
  (fun i => take i p) <$> reverse (seq 0 (length p)).

Definition is_optgroup (root : node) (p : path) : bool :=
  match node_at root p with
  | Some (OptgroupNode _ _) => true
  | _ => false
  end.

(** [set.parents('optgroup')]: for one element its ancestors that are
    option groups, nearest first; for several elements jQuery sorts,
    removes duplicates and reverses. *)
Definition parents_optgroup (root : node) (set : jq) : jq :=
  let matched := filter (fun q => is_optgroup root q) (set ≫= ancestors) in
  if decide (1 < length set) then reverse (uniqueSort matched) else matched.

(** [$(item).attr('label')]. *)
Definition attr_label (root : node) (p : path) : JS.value :=
  match node_at root p with
  | Some (OptgroupNode (Some l) _) => JS.Str l
  | _ => JS.Undefined
  end.

(** [set.data('discussion-id')]: read from the first element, [undefined]
    for the empty set. *)
Definition data_discussion_id (root : node) (set : jq) : JS.value :=
  match set with
  | [] => JS.Undefined
  | p :: _ =>
      match option_at root p with
      | Some o => discussion_id_data o
      | None => JS.Undefined
      end
  end.

(** The ids that every selector engine reads between the quotes as they
    are: letters, digits, the hyphen and the underscore. *)
Definition selector_safe (id : string) : bool :=
  forallb
    (fun c => let n := Ascii.nat_of_ascii c in
              (Nat.leb 48 n && Nat.leb n 57) || (Nat.leb 65 n && Nat.leb n 90) ||
              (Nat.leb 97 n && Nat.leb n 122) || Nat.eqb n 45 || Nat.eqb n 95)
    (String.list_ascii_of_string id).

(** What the selector engine makes of the attribute selector when [id]
    holds other characters (the double quote ends the quoted value, the
    backslash escapes, and engines differ on the rest): a syntax error, or
    some test of the elements. *)
Variable selectorEngine : string -> JS.outcome (node -> path -> bool).

(** The options of [set] whose [data-discussion-id] attribute is [id]. *)
Definition options_with_id (root : node) (id : string) (set : jq) : jq :=
  filter (fun p => discussion_id_attr <$> option_at root p = Some (Some id)) set.

(** [set.filter(...)] with the attribute selector built around [id]: the
    source pastes [id] between double quotes without escaping it. *)
Definition filter_discussion_id (root : node) (id : string) (set : jq) : JS.outcome jq :=
  if selector_safe id then JS.Done (options_with_id root id set)
  else
    test ← selectorEngine id;
    JS.Done (filter (fun p => test root p = true) set).

(** The browser's serializer, behind [.html()] of an element that has
    element children. *)
Variable serializeHTML : list node -> string.
(** The browser's parser, behind [.html(markup)]. *)
Variable parseHTML : string -> list node.

(** [set.html()]: the content of the first element, [undefined] for the
    empty set. *)
Definition html (root : node) (set : jq) : JS.value :=
  match set with
  | [] => JS.Undefined
  | p :: _ =>
      match node_at root p with
      | Some (OptionNode o) => JS.Str (inner_html o)
      | Some n => JS.Str (serializeHTML (child_nodes n))
      | None => JS.Undefined
      end
  end.

(** [_.template($('#topic-template').html())], applied to the clone of
    the settings' attributes extended with [topics_html]. *)
Variable topicTemplate : gmap string JS.value -> string -> string.

(** ** The view *)

(** [course_settings]: a Backbone model; [get('category_map')] reads the
    attribute of that name, kept apart from the other attributes here. *)
Record settings : Type := Settings {
  attributes : gmap string JS.value;
  category_map : ref
}.

(** What a listener of the view is called with, and what the view's
    accessors answer while the listener runs. *)
Record notification : Type := Notification {
  event_name : string;
  event_arg : jq;
  seen_topic_id : JS.value;
  seen_topic_name : JS.value
}.

(** The fields of the view.  [content] is the list of children of the
    root element [this.el]; [triggered] lists the notifications sent so
    far, oldest first. *)
Record view : Type := View {
  course_settings : settings;
  currentTopicId : JS.value;
  topicText : JS.value;
  handleTopicEvent_bound : bool;
  content : list node;
  triggered : list notification
}.

(** [this.el] with its subtree, and [this.$el]. *)
Definition el (v : view) : node := ElementNode (content v).
Definition dollar_el : jq := [[]].

(** The argument of [initialize]. *)
Record options : Type := Options {
  opt_course_settings : settings;
  opt_topicId : JS.value
}.

Definition initialize (o : options) (v : view) : view :=
  {| course_settings := opt_course_settings o;
     currentTopicId := opt_topicId o;
     topicText := topicText v;
     handleTopicEvent_bound := true;
     content := content v;
     triggered := triggered v |}.

Definition getCurrentTopicId (v : view) : JS.value := currentTopicId v.

(** [getFullTopicName(topicElement)]; [None] is the call without an
    argument.  A jQuery object is truthy, also when it is empty. *)
Definition getFullTopicName (v : view) (topicElement : option jq) : JS.value :=
  match topicElement with
  | Some element =>
      fold_left
        (fun name item =>
           JS.Str (JS.to_string (attr_label (el v) item) +:+ " / " +:+ JS.to_string name))
        (parents_optgroup (el v) element)
        (html (el v) element)
  | None => topicText v
  end.

(** [this.trigger(name, arg)]. *)
Definition trigger (name : string) (arg : jq) (v : view) : view :=
  {| course_settings := course_settings v;
     currentTopicId := currentTopicId v;
     topicText := topicText v;
     handleTopicEvent_bound := handleTopicEvent_bound v;
     content := content v;
     triggered := triggered v ++
       [Notification name arg (getCurrentTopicId v) (getFullTopicName v None)] |}.

Definition set_topicText (x : JS.value) (v : view) : view :=
  {| course_settings := course_settings v;
     currentTopicId := currentTopicId v;
     topicText := x;
     handleTopicEvent_bound := handleTopicEvent_bound v;
     content := content v;
     triggered := triggered v |}.

Definition set_currentTopicId (x : JS.value) (v : view) : view :=
  {| course_settings := course_settings v;
     currentTopicId := x;
     topicText := topicText v;
     handleTopicEvent_bound := handleTopicEvent_bound v;
     content := content v;
     triggered := triggered v |}.

(** [this.$el.html(markup)]. *)
Definition set_html (markup : string) (v : view) : view :=
  {| course_settings := course_settings v;
     currentTopicId := currentTopicId v;
     topicText := topicText v;
     handleTopicEvent_bound := handleTopicEvent_bound v;
     content := parseHTML markup;
     triggered := triggered v |}.

Definition setTopic (target : jq) (v : view) : view :=
  let option := find_option true (el v) target in
  if JS.truthy (data_discussion_id (el v) option) then
    let v1 := set_topicText (getFullTopicName v (Some option)) v in
    let v2 := set_currentTopicId (data_discussion_id (el v1) option) v1 in
    trigger "thread:topic_change" option v2
  else v.

(** [handleTopicEvent(event)]; [target] is [event.target]. *)
Definition handleTopicEvent (target : path) (v : view) : view :=
  setTopic [target] v.

(** [render()]: the jQuery object returned and the view afterwards.
    [select] is the method [this.setTopic], looked up when it is called. *)
Definition render_with (select : jq -> view -> view)
    (fuel : nat) (h : heap) (v : view) : JS.outcome (jq * view) :=
  topics_html ← renderCategoryMap fuel h (category_map (course_settings v));
  let v1 := set_html (topicTemplate (attributes (course_settings v)) topics_html) v in
  let options := find_option false (el v1) dollar_el in
  v2 ← (if JS.truthy (getCurrentTopicId v1) then
          matching ← filter_discussion_id (el v1)
                       (JS.to_string (getCurrentTopicId v1)) options;
          JS.Done (select matching v1)
        else
          JS.Done (select (take 1 options) v1));
  JS.Done (dollar_el, v2).

(** [render()] of the view itself. *)
Definition render : nat -> heap -> view -> JS.outcome (jq * view) :=
  render_with setTopic.

(** The operations of the view, and the view each of them leaves. *)
Inductive operation : Type :=
| Initialize (o : options)
| Render
| RenderCategoryMap (map : ref)
| HandleTopicEvent (target : path)
| SetTopic (target : jq)
| GetCurrentTopicId
| GetFullTopicName (topicElement : option jq).

Definition run (fuel : nat) (h : heap) (op : operation) (v : view) : JS.outcome view :=
  match op with
  | Initialize o => JS.Done (initialize o v)
  | Render => r ← render fuel h v; JS.Done (snd r)
  | RenderCategoryMap map => _ ← renderCategoryMap fuel h map; JS.Done v
  | HandleTopicEvent target => JS.Done (handleTopicEvent target v)
  | SetTopic target => JS.Done (setTopic target v)
  | GetCurrentTopicId => let _ := getCurrentTopicId v in JS.Done v
  | GetFullTopicName topicElement =>
      let _ := getFullTopicName v topicElement in JS.Done v
  end.

(** The current topic: its id and its display name. *)
Definition current_topic (v : view) : JS.value * JS.value :=
  (currentTopicId v, topicText v).

End Model.

(** ** Sample templates, category maps and documents *)

Module Sample.

Definition entryTemplate (text : string) (id is_cohorted : JS.value) : string :=
  "<option data-discussion-id='" +:+ JS.to_string id +:+ "'>" +:+ text +:+ "</option>".

Definition categoryTemplate (text entries : string) : string :=
  "<optgroup label='" +:+ text +:+ "'>" +:+ entries +:+ "</optgroup>".

Definition topicTemplate (context : gmap string JS.value) (topics_html : string) : string :=
  "<select class='post-topic'>" +:+ topics_html +:+ "</select>".

(** The names a plain object inherits in today's engines. *)
Definition inherited (name : string) : bool :=
  existsb (String.eqb name)
    ["constructor"; "toString"; "toLocaleString"; "valueOf"; "hasOwnProperty";
     "isPrototypeOf"; "propertyIsEnumerable"; "__proto__"; "__defineGetter__";
     "__defineSetter__"; "__lookupGetter__"; "__lookupSetter__"].

(** A selector engine that reports every other id as a syntax error. *)
Definition selectorEngine (id : string) : JS.outcome (node -> path -> bool) :=
  JS.Throw.

(** A course with the topic General and the category Week 1, which holds
    the topic Homework. *)
Definition general : entry := Entry (JS.Str "general") (JS.Bool false).
Definition homework : entry := Entry (JS.Str "hw1") (JS.Bool true).

Definition week1_map : category :=
  Category ["Homework"] {[ "Homework" := homework ]} ∅.
Definition course_map : category :=
  Category ["General"; "Week 1"] {[ "General" := general ]} {[ "Week 1" := 2%positive ]}.
Definition course_heap : heap :=
  {[ 1%positive := course_map; 2%positive := week1_map ]}.

Definition course_markup : string :=
  "<select class='post-topic'><option data-discussion-id='general'>General</option><optgroup label='Week 1'><option data-discussion-id='hw1'>Homework</option></optgroup></select>".

(** A category map that is its own subcategory. *)
Definition loop_map : category :=
  Category ["Loop"] ∅ {[ "Loop" := 1%positive ]}.
Definition loop_heap : heap := {[ 1%positive := loop_map ]}.

(** A category map in which General is both an entry and a subcategory;
    the subcategory is the map itself. *)
Definition clash_map : category :=
  Category ["General"] {[ "General" := general ]} {[ "General" := 1%positive ]}.
Definition clash_heap : heap := {[ 1%positive := clash_map ]}.

(** The elements of the rendered course. *)
Definition general_option : option_element :=
  OptionElement (Some "general") (JS.Str "general") true "General".
Definition homework_option (sel : bool) : option_element :=
  OptionElement (Some "hw1") (JS.Str "hw1") sel "Homework".

Definition course_content : list node :=
  [ElementNode
     [OptionNode general_option;
      OptgroupNode (Some "Week 1") [OptionNode (homework_option false)]]].

(** The same select after the user picked Homework. *)
Definition picked_content : list node :=
  [ElementNode
     [OptionNode (OptionElement (Some "general") (JS.Str "general") false "General");
      OptgroupNode (Some "Week 1") [OptionNode (homework_option true)]]].

(** A select whose selected option has the id 0. *)
Definition zero_option : option_element :=
  OptionElement (Some "0") (JS.Num 0) true "Zero".
Definition zero_content : list node := [ElementNode [OptionNode zero_option]].

(** A select whose selected option has no id at all. *)
Definition placeholder_option : option_element :=
  OptionElement None JS.Undefined true "Choose a topic".
Definition placeholder_content : list node :=
  [ElementNode [OptionNode placeholder_option]].

(** An option two groups deep. *)
Definition nested_content : list node :=
  [ElementNode
     [OptgroupNode (Some "Outer")
        [OptgroupNode (Some "Inner")
           [OptionNode (OptionElement (Some "x") (JS.Str "x") true "Label")]]]].

Definition parseHTML (markup : string) : list node :=
  if String.eqb markup course_markup then course_content else [].

Definition serializeHTML (kids : list node) : string := EmptyString.

Definition course_settings : settings := Settings ∅ 1%positive.

Definition blank (content : list node) : view :=
  View course_settings JS.Undefined JS.Undefined false content [].

Definition with_topic (id name : JS.value) (content : list node) : view :=
  View course_settings id name true content [].

End Sample.

(** ** The properties stated of the view *)

(** A category map whose chains of subcategories all end: a finite tree. *)
Inductive finite_tree (h : heap) : ref -> Prop :=
| finite_tree_node (map : ref) :
    (forall m name sub,
        h !! map = Some m -> subcategories m !! name = Some sub ->
        finite_tree h sub) ->
    finite_tree h map.

(** A finite category map in the sense of the data model: the reference
    leads to an object, every child name that is not an entry names a
    subcategory, and the subcategories so reached are finite category maps
    again. *)
Inductive category_tree (h : heap) : ref -> Prop :=
| category_tree_node (map : ref) (m : category) :
    h !! map = Some m ->
    (forall name, name ∈ children m -> entries m !! name = None ->
                  is_Some (subcategories m !! name)) ->
    (forall name sub, name ∈ children m -> entries m !! name = None ->
                      subcategories m !! name = Some sub ->
                      category_tree h sub) ->
    category_tree h map.

(** [m] without its subcategory [name]. *)
Definition without_subcategory (name : string) (m : category) : category :=
  Category (children m) (entries m) (delete name (subcategories m)).

Section Statements.

Variable entryTemplate : string -> JS.value -> JS.value -> string.
Variable categoryTemplate : string -> string -> string.
Variable inherited : string -> bool.
Variable selectorEngine : string -> JS.outcome (node -> path -> bool).
Variable serializeHTML : list node -> string.
Variable parseHTML : string -> list node.
Variable topicTemplate : gmap string JS.value -> string -> string.

Local Abbreviation renderCategoryMap' := (renderCategoryMap entryTemplate categoryTemplate inherited).
Local Abbreviation getFullTopicName' := (getFullTopicName serializeHTML).
Local Abbreviation setTopic' := (setTopic serializeHTML).
Local Abbreviation render' :=
  (render entryTemplate categoryTemplate inherited selectorEngine serializeHTML parseHTML topicTemplate).
Local Abbreviation run' :=
  (run entryTemplate categoryTemplate inherited selectorEngine serializeHTML parseHTML topicTemplate).

(** The fragment stated for the child [name] of [m]: the entry fragment
    for a leaf entry, otherwise the category fragment around the
    rendering of the subcategory of that name. *)
Definition is_fragment (h : heap) (m : category) (name frag : string) : Prop :=
  match entries m !! name with
  | Some e => frag = entryTemplate name (entry_id e) (is_cohorted e)
  | None =>
      exists sub html fuel,
        subcategories m !! name = Some sub /\
        renderCategoryMap' fuel h sub = JS.Done html /\
        frag = categoryTemplate name html
  end.

(** The labels of the option groups around the element [p], nearest
    first, as they read in a string. *)
Definition group_labels (root : node) (p : path) : list string :=
  (fun q => JS.to_string (attr_label root q))
    <$> filter (fun q => is_optgroup root q) (ancestors p).

(** The call sent exactly one topic change notification, carrying
    [option]. *)
Definition notified_once (option : jq) (v v' : view) : Prop :=
  exists n,
    triggered v' = triggered v ++ [n] /\
    event_name n = "thread:topic_change" /\
    event_arg n = option.

(** [setTopic] as first stated: the selected option counts as soon as it
    carries an id, whatever the id. *)
Definition setTopic_as_stated (target : jq) (v : view) : Prop :=
  let option := find_option true (el v) target in
  let id := data_discussion_id (el v) option in
  let v' := setTopic' target v in
  (id <> JS.Undefined ->
     currentTopicId v' = id /\
     topicText v' = getFullTopicName' v (Some option) /\
     notified_once option v v') /\
  (id = JS.Undefined ->
     current_topic v' = current_topic v /\ triggered v' = triggered v).



(** The operation that handles the user's change event. *)
Definition handles_user_event (op : operation) : bool :=
  match op with
  | HandleTopicEvent _ => true
  | _ => false
  end.

(** The current topic as first stated: no operation but the handling of
    a user's change event modifies it. *)
Definition topic_changes_as_stated : Prop :=
  forall fuel h op v v',
    run' fuel h op v = JS.Done v' ->
    handles_user_event op = false ->
    current_topic v' = current_topic v.

End Statements.

(** ** Further notions and cases *)

(** A category map that can be rendered: the reference leads to an
    object, every child that is neither an entry nor a subcategory is a
    name that every object inherits, and the subcategories of the children
    that are no entries can be rendered again. *)
Inductive renderable (inherited : string -> bool) (h : heap) : ref -> Prop :=
| renderable_node (map : ref) (m : category) :
    h !! map = Some m ->
    (forall name, name ∈ children m -> entries m !! name = None ->
                  subcategories m !! name = None -> inherited name = true) ->
    (forall name sub, name ∈ children m -> entries m !! name = None ->
                      subcategories m !! name = Some sub ->
                      renderable inherited h sub) ->
    renderable inherited h map.

(** [m] with the array [names] as its [children]. *)
Definition with_children (names : list string) (m : category) : category :=
  Category names (entries m) (subcategories m).

(** Two category maps that list the same children and hold the same entry
    for every child and, for every child that is no entry, the same
    subcategory. *)
Definition same_on_children (m1 m2 : category) : Prop :=
  children m1 = children m2 /\
  forall name, name ∈ children m1 ->
    entries m1 !! name = entries m2 !! name /\
    (entries m1 !! name = None ->
     subcategories m1 !! name = subcategories m2 !! name).

(** The current topic of [v'] is that of [v], or it is the id and the full
    name of the selected option found below [target] in [v], that id being
    truthy. *)
Definition topic_after_selection (serializeHTML : list node -> string)
    (target : jq) (v v' : view) : Prop :=
  let option := find_option true (el v) target in
  current_topic v' = current_topic v \/
  (JS.truthy (data_discussion_id (el v) option) = true /\
   current_topic v' =
     (data_discussion_id (el v) option, getFullTopicName serializeHTML v (Some option))).

(** What holds of every notification the view sends: its name, a truthy
    topic id seen by the listeners, and an argument that is not empty. *)
Definition topic_change (n : notification) : Prop :=
  event_name n = "thread:topic_change" /\
  JS.truthy (seen_topic_id n) = true /\
  event_arg n <> [].

Module Cases.

(** Ghost is listed as a child and is neither an entry nor a
    subcategory. *)
Definition ghost_map : category :=
  Category ["General"; "Ghost"] {[ "General" := Sample.general ]} ∅.
Definition ghost_heap : heap := {[ 1%positive := ghost_map ]}.

(** The sample course, the same course with an entry and a subcategory
    that [children] does not list, and the course cut in two. *)
Definition padded_map : category :=
  Category ["General"; "Week 1"]
    {[ "General" := Sample.general; "Hidden" := Sample.homework ]}
    {[ "Week 1" := 2%positive; "Unlisted" := 9%positive ]}.
Definition library : heap :=
  {[ 1%positive := Sample.course_map;
     2%positive := Sample.week1_map;
     3%positive := padded_map;
     4%positive := with_children ["General"] Sample.course_map;
     5%positive := with_children ["Week 1"] Sample.course_map ]}.


(** The view of the rendered course before and after the user picked
    Homework. *)
Definition rendered : view := Sample.blank Sample.course_content.
Definition picked : view := Sample.blank Sample.picked_content.

End Cases.

(** ** Rendering category maps *)

Ltac unfold_bind := unfold mbind, JS.outcome_bind in *; simpl in *.

Section CategoryMapFacts.

Variable entryTemplate : string -> JS.value -> JS.value -> string.
Variable categoryTemplate : string -> string -> string.
Variable inherited : string -> bool.

Local Abbreviation renderCategoryMap' := (renderCategoryMap entryTemplate categoryTemplate inherited).
Local Abbreviation renderChild' := (renderChild entryTemplate categoryTemplate inherited).
Local Abbreviation renderMap' := (renderMap entryTemplate categoryTemplate inherited).
Local Abbreviation is_fragment' := (is_fragment entryTemplate categoryTemplate inherited).

Lemma bind_not_out_of_fuel {A B} (x : JS.outcome A) (f : A -> JS.outcome B) :
  x ≫= f <> JS.OutOfFuel -> x <> JS.OutOfFuel.
Proof. destruct x; unfold_bind; congruence. Qed.

Lemma map_each_agree {A B} (f g : A -> JS.outcome B) (l : list A) :
  (forall a, a ∈ l -> f a <> JS.OutOfFuel -> g a = f a) ->
  JS.map_each f l <> JS.OutOfFuel ->
  JS.map_each g l = JS.map_each f l.
Proof.
  induction l as [|a l IH]; intros Hfg Hne; [reflexivity|].
  cbn [JS.map_each] in *.
  assert (Ha : f a <> JS.OutOfFuel) by (eapply bind_not_out_of_fuel; eassumption).
  rewrite (Hfg a) by (auto; left).
  destruct (f a) as [b| |]; unfold_bind; try congruence.
  rewrite IH; [reflexivity| |].
  - intros a' Hin. apply Hfg. now right.
  - destruct (JS.map_each f l); unfold_bind; congruence.
Qed.

Lemma renderChild_agree (f g : ref -> JS.outcome string) (m : category) (name : string) :
  (forall sub, subcategories m !! name = Some sub ->
               f sub <> JS.OutOfFuel -> g sub = f sub) ->
  renderChild' f m name <> JS.OutOfFuel ->
  renderChild' g m name = renderChild' f m name.
Proof.
  unfold renderChild. intros Hfg Hne.
  destruct (entries m !! name); [reflexivity|].
  destruct (subcategories m !! name) as [sub|]; [|reflexivity].
  rewrite (Hfg sub); [reflexivity|reflexivity|].
  eapply bind_not_out_of_fuel; eassumption.
Qed.

(** More fuel never changes the outcome of a call that came to its end. *)
Lemma renderCategoryMap_more_fuel (fuel : nat) :
  forall (h : heap) (map : ref) (fuel' : nat),
    renderCategoryMap' fuel h map <> JS.OutOfFuel ->
    fuel <= fuel' ->
    renderCategoryMap' fuel' h map = renderCategoryMap' fuel h map.
Proof.
  induction fuel as [|fuel IH]; intros h map fuel' Hne Hle.
  - exfalso. apply Hne. reflexivity.
  - destruct fuel' as [|fuel']; [lia|].
    cbn [renderCategoryMap] in *.
    destruct (h !! map) as [m|]; [|reflexivity].
    unfold renderMap in *.
    rewrite (map_each_agree (renderChild' (renderCategoryMap' fuel h) m)); [reflexivity| |].
    + intros name _. apply renderChild_agree.
      intros sub _ Hsub. apply IH; [assumption|lia].
    + eapply bind_not_out_of_fuel; eassumption.
Qed.

Lemma renderCategoryMap_done_more_fuel (fuel fuel' : nat) (h : heap) (map : ref) (html : string) :
  renderCategoryMap' fuel h map = JS.Done html ->
  fuel <= fuel' ->
  renderCategoryMap' fuel' h map = JS.Done html.
Proof.
  intros Hdone Hle. rewrite <- Hdone.
  apply renderCategoryMap_more_fuel; [congruence|assumption].
Qed.

Lemma children_terminate (h : heap) (m : category) :
  (forall name sub, subcategories m !! name = Some sub ->
     exists n, forall fuel, n <= fuel -> renderCategoryMap' fuel h sub <> JS.OutOfFuel) ->
  forall names : list string,
    exists n, forall fuel, n <= fuel ->
      JS.map_each (renderChild' (renderCategoryMap' fuel h) m) names <> JS.OutOfFuel.
Proof.
  intros Hsub names. induction names as [|name names [n Hn]].
  - exists 0. intros fuel _. cbn. congruence.
  - assert (Hname : exists n', forall fuel, n' <= fuel ->
              renderChild' (renderCategoryMap' fuel h) m name <> JS.OutOfFuel).
    { unfold renderChild.
      destruct (entries m !! name); [exists 0; congruence|].
      destruct (subcategories m !! name) as [sub|] eqn:Hs;
        [|exists 0; destruct (inherited name); congruence].
      destruct (Hsub name sub Hs) as [n' Hn']. exists n'.
      intros fuel Hle. specialize (Hn' fuel Hle).
      destruct (renderCategoryMap' fuel h sub); unfold_bind; congruence. }
    destruct Hname as [n' Hn'].
    exists (n `max` n'). intros fuel Hle.
    specialize (Hn fuel ltac:(lia)). specialize (Hn' fuel ltac:(lia)).
    cbn [JS.map_each].
    destruct (renderChild' (renderCategoryMap' fuel h) m name); unfold_bind; try congruence.
    destruct (JS.map_each _ names); unfold_bind; congruence.
Qed.

Lemma loop_never_ends (fuel : nat) :
  renderCategoryMap' fuel Sample.loop_heap 1%positive = JS.OutOfFuel.
Proof.
  induction fuel as [|fuel IH]; [reflexivity|].
  cbn [renderCategoryMap].
  change (Sample.loop_heap !! 1%positive) with (Some Sample.loop_map).
  unfold renderMap, renderChild. cbn [children Sample.loop_map JS.map_each].
  change (entries Sample.loop_map !! "Loop") with (@None entry).
  change (subcategories Sample.loop_map !! "Loop") with (Some 1%positive).
  cbv beta iota. rewrite IH. reflexivity.
Qed.

Lemma loop_not_finite : ~ finite_tree Sample.loop_heap 1%positive.
Proof.
  intros Hfin. remember 1%positive as map eqn:Hmap.
  induction Hfin as [map _ IH]. subst map.
  apply (IH Sample.loop_map "Loop" 1%positive); reflexivity.
Qed.

(** C7.  [renderCategoryMap] comes to its end on every category map whose
    chains of subcategories are all finite: with enough nested calls
    allowed it returns or throws.  Nothing in the recursion detects a
    cycle: on the map that is its own subcategory no number of nested
    calls is enough, and that map is not a finite tree. *)
Theorem renderCategoryMap_terminates (h : heap) (map : ref) :
  finite_tree h map ->
  (exists n, forall fuel, n <= fuel ->
     renderCategoryMap' fuel h map <> JS.OutOfFuel) /\
  (forall fuel, renderCategoryMap' fuel Sample.loop_heap 1%positive = JS.OutOfFuel) /\
  ~ finite_tree Sample.loop_heap 1%positive.
Proof.
  intros Hfin. split; [|split; [apply loop_never_ends|apply loop_not_finite]].
  induction Hfin as [map _ IH].
  destruct (h !! map) as [m|] eqn:Hm.
  - destruct (children_terminate h m (fun name sub => IH m name sub eq_refl) (children m))
      as [n Hn].
    exists (S n). intros [|fuel] Hle; [lia|].
    cbn [renderCategoryMap]. rewrite Hm. unfold renderMap.
    specialize (Hn fuel ltac:(lia)).
    destruct (JS.map_each _ (children m)); unfold_bind; congruence.
  - exists 1. intros [|fuel] Hle; [lia|].
    cbn [renderCategoryMap]. rewrite Hm. congruence.
Qed.

Lemma map_each_ext {A B} (f g : A -> JS.outcome B) (l : list A) :
  (forall a, f a = g a) -> JS.map_each f l = JS.map_each g l.
Proof.
  intros Hfg. induction l as [|a l IH]; [reflexivity|].
  cbn [JS.map_each]. rewrite Hfg, IH. reflexivity.
Qed.

Lemma map_each_done {A B} (f : A -> JS.outcome B) (l : list A) (bs : list B) :
  JS.map_each f l = JS.Done bs -> Forall2 (fun a b => f a = JS.Done b) l bs.
Proof.
  revert bs. induction l as [|a l IH]; intros bs Hdone; cbn [JS.map_each] in Hdone.
  - injection Hdone as <-. constructor.
  - destruct (f a) as [b| |] eqn:Ha; unfold_bind; try discriminate.
    destruct (JS.map_each f l) as [bs'| |]; unfold_bind; try discriminate.
    injection Hdone as <-. constructor; [assumption|]. apply IH. reflexivity.
Qed.

Lemma children_fragments (h : heap) (m : category) :
  (forall name sub, name ∈ children m -> entries m !! name = None ->
     subcategories m !! name = Some sub ->
     exists n html, forall fuel, n <= fuel ->
       renderCategoryMap' fuel h sub = JS.Done html) ->
  (forall name, name ∈ children m -> entries m !! name = None ->
     is_Some (subcategories m !! name)) ->
  forall names : list string,
    (forall name, name ∈ names -> name ∈ children m) ->
    exists n frags,
      Forall2 (is_fragment' h m) names frags /\
      forall fuel, n <= fuel ->
        JS.map_each (renderChild' (renderCategoryMap' fuel h) m) names = JS.Done frags.
Proof.
  intros Hsub Hwf names. induction names as [|name names IH]; intros Hin.
  - exists 0, []. split; [constructor|reflexivity].
  - destruct IH as (n & frags & Hfrags & Hn).
    { intros name' H'. apply Hin. now right. }
    assert (Hname : exists n' frag, is_fragment' h m name frag /\
              forall fuel, n' <= fuel ->
                renderChild' (renderCategoryMap' fuel h) m name = JS.Done frag).
    { unfold is_fragment, renderChild.
      destruct (entries m !! name) as [e|] eqn:He.
      - exists 0. eexists. split; reflexivity.
      - destruct (Hwf name) as [sub Hs]; [apply Hin; left|assumption|].
        destruct (Hsub name sub) as (n' & html & Hn'); [apply Hin; left|assumption..|].
        exists n', (categoryTemplate name html). split.
        + exists sub, html, n'. auto.
        + intros fuel Hle. rewrite Hs, (Hn' fuel Hle). reflexivity. }
    destruct Hname as (n' & frag & Hfrag & Hn').
    exists (n `max` n'), (frag :: frags). split; [constructor; assumption|].
    intros fuel Hle. cbn [JS.map_each].
    rewrite Hn' by lia. rewrite Hn by lia. reflexivity.
Qed.

Lemma append_empty (x : string) : x +:+ EmptyString = x.
Proof.
  induction x as [|c x IH]; [reflexivity|].
  change (String c (x +:+ EmptyString) = String c x). f_equal. exact IH.
Qed.

(** [join('')] puts the strings one after the other, with nothing in
    between. *)
Lemma join_concat (frags : list string) :
  JS.join frags = String.concat EmptyString frags.
Proof.
  induction frags as [|frag frags IH]; [reflexivity|].
  unfold JS.join in *. cbn [foldr]. rewrite IH.
  destruct frags as [|frag' frags]; [apply append_empty|reflexivity].
Qed.

(** C3.  On a finite category map [renderCategoryMap] returns, and what it
    returns is the concatenation of one fragment per name of [children],
    in the order of [children]: the entry fragment of the name, its id
    and its cohort flag when the name is a leaf entry, and otherwise the
    category fragment around the rendering of the subcategory of that
    name. *)
Theorem renderCategoryMap_concatenates (h : heap) (map : ref) :
  category_tree h map ->
  exists m n frags,
    h !! map = Some m /\
    Forall2 (is_fragment' h m) (children m) frags /\
    forall fuel, n <= fuel ->
      renderCategoryMap' fuel h map = JS.Done (String.concat EmptyString frags).
Proof.
  intros Htree. induction Htree as [map m Hm Hwf _ IH].
  destruct (children_fragments h m) with (names := children m)
    as (n & frags & Hfrags & Hn); [|assumption|auto|].
  { intros name sub Hin He Hs.
    destruct (IH name sub Hin He Hs) as (_ & n & frags & _ & _ & Hn).
    exists n, (String.concat EmptyString frags). assumption. }
  exists m, (S n), frags. repeat split; [assumption..|].
  intros [|fuel] Hle; [lia|].
  cbn [renderCategoryMap]. rewrite Hm. unfold renderMap.
  rewrite Hn by lia. unfold mbind, JS.outcome_bind. rewrite join_concat. reflexivity.
Qed.

(** C9.  When a child name is both a key of [entries] and a key of
    [subcategories], the entry wins: the callback answers with the entry
    fragment whatever the recursive call would do, the map renders as it
    does without the subcategory of that name, and in what
    [renderCategoryMap] returns the fragment at every position of the name
    is the entry fragment. *)
Theorem entries_take_precedence (h : heap) (m : category) (name : string)
    (e : entry) (sub : ref) :
  name ∈ children m ->
  entries m !! name = Some e ->
  subcategories m !! name = Some sub ->
  (forall recurse,
      renderChild' recurse m name =
      JS.Done (entryTemplate name (entry_id e) (is_cohorted e))) /\
  (forall recurse,
      renderMap' recurse (without_subcategory name m) = renderMap' recurse m) /\
  (forall fuel map out,
      h !! map = Some m ->
      renderCategoryMap' fuel h map = JS.Done out ->
      exists frags,
        out = JS.join frags /\
        length frags = length (children m) /\
        forall i, children m !! i = Some name ->
          frags !! i = Some (entryTemplate name (entry_id e) (is_cohorted e))).
Proof.
  intros Hin He Hs.
  assert (Hchild : forall recurse,
             renderChild' recurse m name =
             JS.Done (entryTemplate name (entry_id e) (is_cohorted e))).
  { intros recurse. unfold renderChild. rewrite He. reflexivity. }
  split; [assumption|]. split.
  - intros recurse. unfold renderMap. cbn [children without_subcategory].
    rewrite (map_each_ext _ (renderChild' recurse m)); [reflexivity|].
    intros name'. unfold renderChild. cbn [entries subcategories without_subcategory].
    destruct (entries m !! name') eqn:He'; [reflexivity|].
    rewrite lookup_delete_ne by congruence. reflexivity.
  - intros [|fuel] map out Hm Hout; [discriminate|].
    cbn [renderCategoryMap] in Hout. rewrite Hm in Hout. unfold renderMap in Hout.
    destruct (JS.map_each _ (children m)) as [frags| |] eqn:Hfrags;
      unfold_bind; try discriminate.
    injection Hout as <-. apply map_each_done in Hfrags.
    exists frags. split; [reflexivity|]. split.
    + symmetry. eapply Forall2_length. eassumption.
    + intros i Hi.
      destruct (Forall2_lookup_l _ _ _ _ _ Hfrags Hi) as (frag & Hfrag & Hdone).
      rewrite Hchild in Hdone. injection Hdone as <-. assumption.
Qed.

End CategoryMapFacts.

(** ** The view's operations *)

Section ViewFacts.

Variable entryTemplate : string -> JS.value -> JS.value -> string.
Variable categoryTemplate : string -> string -> string.
Variable inherited : string -> bool.
Variable selectorEngine : string -> JS.outcome (node -> path -> bool).
Variable serializeHTML : list node -> string.
Variable parseHTML : string -> list node.
Variable topicTemplate : gmap string JS.value -> string -> string.

Local Abbreviation renderCategoryMap' := (renderCategoryMap entryTemplate categoryTemplate inherited).
Local Abbreviation getFullTopicName' := (getFullTopicName serializeHTML).
Local Abbreviation setTopic' := (setTopic serializeHTML).
Local Abbreviation html' := (html serializeHTML).
Local Abbreviation set_html' := (set_html parseHTML).
Local Abbreviation render' :=
  (render entryTemplate categoryTemplate inherited selectorEngine serializeHTML parseHTML topicTemplate).
Local Abbreviation render_with' :=
  (render_with entryTemplate categoryTemplate inherited selectorEngine parseHTML topicTemplate).
Local Abbreviation run' :=
  (run entryTemplate categoryTemplate inherited selectorEngine serializeHTML parseHTML topicTemplate).

Lemma setTopic_selects (target : jq) (v : view) :
  let option := find_option true (el v) target in
  let id := data_discussion_id (el v) option in
  JS.truthy id = true ->
  setTopic' target v =
  trigger serializeHTML "thread:topic_change" option
    (set_currentTopicId id (set_topicText (getFullTopicName' v (Some option)) v)).
Proof. intros option id Hid. unfold setTopic. fold option. fold id. rewrite Hid. reflexivity. Qed.

Lemma setTopic_skips (target : jq) (v : view) :
  JS.truthy (data_discussion_id (el v) (find_option true (el v) target)) = false ->
  setTopic' target v = v.
Proof. intros Hid. unfold setTopic. rewrite Hid. reflexivity. Qed.

Lemma setTopic_content (target : jq) (v : view) :
  content (setTopic' target v) = content v.
Proof. unfold setTopic. destruct (JS.truthy _); reflexivity. Qed.

(** C1, as amended.  [setTopic(target)] looks at the discussion id of the
    selected option under [target].  When that id is truthy, the current
    topic id becomes the id, the display name becomes the full name of
    the option, and exactly one [thread:topic_change] notification is
    sent, carrying the option.  When it is not (no selected option, no id,
    or a falsy id), the view is left as it is and nothing is sent. *)
Theorem setTopic_spec (target : jq) (v : view) :
  let option := find_option true (el v) target in
  let id := data_discussion_id (el v) option in
  let v' := setTopic' target v in
  (JS.truthy id = true ->
     currentTopicId v' = id /\
     topicText v' = getFullTopicName' v (Some option) /\
     notified_once option v v') /\
  (JS.truthy id = false -> v' = v).
Proof.
  intros option id v'. split; intros Hid.
  - subst v'. rewrite setTopic_selects by exact Hid.
    repeat split. eexists. repeat split.
  - apply setTopic_skips. exact Hid.
Qed.

(** C8.  An id that is present but falsy, such as the number 0 or the
    empty string, counts as no id: [setTopic] leaves the current topic id
    and the display name as they are and sends no notification. *)
Theorem setTopic_falsy_id (target : jq) (v : view) :
  let id := data_discussion_id (el v) (find_option true (el v) target) in
  id <> JS.Undefined ->
  JS.truthy id = false ->
  currentTopicId (setTopic' target v) = currentTopicId v /\
  topicText (setTopic' target v) = topicText v /\
  triggered (setTopic' target v) = triggered v /\
  JS.truthy (JS.Num 0) = false /\ JS.truthy (JS.Str EmptyString) = false.
Proof.
  intros id _ Hid. rewrite setTopic_skips by exact Hid. repeat split.
Qed.

(** C10.  Every notification [setTopic] sends is sent after both
    assignments: while its listeners run, [getCurrentTopicId()] answers
    the id of the newly selected option and the cached display name is
    the full topic name of that option. *)
Theorem notification_sees_new_topic (target : jq) (v : view)
    (sent : list notification) (n : notification) :
  triggered (setTopic' target v) = triggered v ++ sent ->
  n ∈ sent ->
  let option := find_option true (el v) target in
  event_name n = "thread:topic_change" /\
  event_arg n = option /\
  seen_topic_id n = data_discussion_id (el v) option /\
  seen_topic_name n = getFullTopicName' v (Some option).
Proof.
  intros Hsent Hn option.
  destruct (JS.truthy (data_discussion_id (el v) option)) eqn:Hid.
  - rewrite setTopic_selects in Hsent by exact Hid.
    cbn [triggered trigger set_currentTopicId set_topicText] in Hsent.
    apply app_inv_head in Hsent. subst sent.
    apply list_elem_of_singleton in Hn. subst n. repeat split.
  - rewrite setTopic_skips in Hsent by exact Hid.
    rewrite <- (app_nil_r (triggered v)) in Hsent at 1.
    apply app_inv_head in Hsent. subst sent.
    apply elem_of_nil in Hn. contradiction.
Qed.

(** C6.  [initialize] assigns fields and does nothing else: the settings
    and the topic id of its argument are stored and [handleTopicEvent] is
    bound; the content of the root element, the display name and the
    list of notifications sent are as before. *)
Theorem initialize_only_assigns (o : options) (v : view) :
  initialize o v =
    View (opt_course_settings o) (opt_topicId o) (topicText v) true
         (content v) (triggered v) /\
  course_settings (initialize o v) = opt_course_settings o /\
  currentTopicId (initialize o v) = opt_topicId o /\
  content (initialize o v) = content v /\
  triggered (initialize o v) = triggered v.
Proof. repeat split. Qed.

Lemma concat_last_two (sep : string) (xs : list string) (a b : string) :
  String.concat sep (xs ++ [a; b]) = String.concat sep (xs ++ [a +:+ sep +:+ b]).
Proof.
  induction xs as [|x xs IH]; [reflexivity|].
  destruct xs as [|y xs]; [reflexivity|].
  change (String.concat sep ((x :: y :: xs) ++ [a; b]))
    with (x +:+ sep +:+ String.concat sep ((y :: xs) ++ [a; b])).
  rewrite IH. reflexivity.
Qed.

Lemma prefix_labels (root : node) (items : jq) (name : string) :
  fold_left
    (fun name item =>
       JS.Str (JS.to_string (attr_label root item) +:+ " / " +:+ JS.to_string name))
    items (JS.Str name) =
  JS.Str (String.concat " / "
            (reverse ((fun q => JS.to_string (attr_label root q)) <$> items) ++ [name])).
Proof.
  revert name. induction items as [|item items IH]; intros name; [reflexivity|].
  cbn [fold_left JS.to_string]. rewrite IH.
  rewrite fmap_cons, reverse_cons, <- app_assoc. cbn [app].
  rewrite concat_last_two. reflexivity.
Qed.

(** C4.  For an option element, [getFullTopicName] answers the content of
    the option with the labels of the option groups around it in front,
    the outermost group first, joined by " / ".  For the option Label in
    the group Inner in the group Outer that is "Outer / Inner / Label". *)
Theorem getFullTopicName_joins_labels (v : view) (p : path) (o : option_element) :
  option_at (el v) p = Some o ->
  getFullTopicName' v (Some [p]) =
    JS.Str (String.concat " / " (reverse (group_labels (el v) p) ++ [inner_html o])) /\
  getFullTopicName' (Sample.blank Sample.nested_content) (Some [[0; 0; 0; 0]]) =
    JS.Str "Outer / Inner / Label".
Proof.
  intros Ho. split; [|reflexivity].
  unfold getFullTopicName, parents_optgroup, html, group_labels.
  unfold option_at in Ho.
  destruct (node_at (el v) p) as [[o'| |]|]; try discriminate.
  injection Ho as ->.
  cbn [mbind list_bind mapM length]. rewrite app_nil_r.
  destruct (decide (1 < 1)) as [Hlt|_]; [lia|].
  apply prefix_labels.
Qed.

(** *** What [render] hands to [setTopic] *)

Lemma node_induction (P : node -> Prop) :
  (forall o, P (OptionNode o)) ->
  (forall label kids, Forall P kids -> P (OptgroupNode label kids)) ->
  (forall kids, Forall P kids -> P (ElementNode kids)) ->
  forall n, P n.
Proof.
  intros Hoption Hgroup Helement. fix IH 1. intros [o|label kids|kids].
  - apply Hoption.
  - apply Hgroup. induction kids as [|kid kids IHkids]; constructor; [apply IH|assumption].
  - apply Helement. induction kids as [|kid kids IHkids]; constructor; [apply IH|assumption].
Qed.

Lemma options_in_unfold (n : node) :
  options_in n =
  match n with
  | OptionNode _ => [[]]
  | OptgroupNode _ kids | ElementNode kids => options_in_kids 0 kids
  end.
Proof.
  destruct n as [o|label kids|kids]; [reflexivity| |];
    cbn [options_in]; generalize 0;
    induction kids as [|kid kids IH]; intros i; cbn [options_in_kids];
    try reflexivity; rewrite <- IH; reflexivity.
Qed.

Lemma options_in_kids_elem (kids : list node) :
  forall (i : nat) (q : path),
    q ∈ options_in_kids i kids ->
    exists j kid q', q = (i + j) :: q' /\ kids !! j = Some kid /\ q' ∈ options_in kid.
Proof.
  induction kids as [|kid kids IH]; intros i q Hq; cbn [options_in_kids] in Hq.
  - apply elem_of_nil in Hq. contradiction.
  - apply elem_of_app in Hq. destruct Hq as [Hq|Hq].
    + apply list_elem_of_fmap in Hq. destruct Hq as (q' & -> & Hq').
      exists 0, kid, q'. rewrite Nat.add_0_r. auto.
    + destruct (IH _ _ Hq) as (j & kid' & q' & -> & Hj & Hq').
      exists (S j), kid', q'. rewrite Nat.add_succ_r. auto.
Qed.

(** [options_in] lists option elements only. *)
Lemma options_in_option (n : node) :
  forall q, q ∈ options_in n -> exists o, node_at n q = Some (OptionNode o).
Proof.
  induction n as [o|label kids IH|kids IH] using node_induction; intros q Hq;
    rewrite options_in_unfold in Hq.
  - apply list_elem_of_singleton in Hq. subst q. exists o. reflexivity.
  - destruct (options_in_kids_elem _ _ _ Hq) as (j & kid & q' & -> & Hj & Hq').
    rewrite Forall_lookup in IH. cbn. rewrite Hj. exact (IH j kid Hj q' Hq').
  - destruct (options_in_kids_elem _ _ _ Hq) as (j & kid & q' & -> & Hj & Hq').
    rewrite Forall_lookup in IH. cbn. rewrite Hj. exact (IH j kid Hj q' Hq').
Qed.

(** [this.$('option')] holds option elements only. *)
Lemma find_option_in_el (v : view) (q : path) :
  q ∈ find_option false (el v) dollar_el -> is_Some (option_at (el v) q).
Proof.
  unfold find_option, dollar_el. cbn [length mbind list_bind mapM node_at].
  destruct (decide (1 < 1)) as [Hlt|_]; [lia|]. rewrite app_nil_r.
  intros Hq. apply list_elem_of_filter in Hq. destruct Hq as [_ Hq].
  apply list_elem_of_fmap in Hq. destruct Hq as (q' & -> & Hq').
  cbn [app]. unfold option_descendants, el in Hq'.
  destruct (options_in_option _ _ Hq') as [o Ho].
  unfold option_at, el. rewrite Ho. eauto.
Qed.

(** No option is found below option elements: [$(selector, context)]
    searches the descendants of the context. *)
Lemma find_option_below_options (only_selected : bool) (root : node) (context : jq) :
  (forall p, p ∈ context -> is_Some (option_at root p)) ->
  find_option only_selected root context = [].
Proof.
  intros Hoptions. unfold find_option. cbv zeta.
  match goal with
  | |- (if _ then uniqueSort ?ret else _) = [] => assert (Hret : ret = [])
  end.
  { induction context as [|p context IH]; [reflexivity|].
    cbn [mbind list_bind mapM]. rewrite IH.
    - destruct (Hoptions p) as [o Ho]; [left|].
      unfold option_at in Ho.
      destruct (node_at root p) as [[o'| |]|]; try discriminate. reflexivity.
    - intros p' Hp'. apply Hoptions. now right. }
  rewrite Hret. destruct (decide _); reflexivity.
Qed.

Lemma setTopic_options (target : jq) (v : view) :
  (forall p, p ∈ target -> is_Some (option_at (el v) p)) ->
  setTopic' target v = v.
Proof.
  intros Hoptions. apply setTopic_skips.
  rewrite find_option_below_options by assumption. reflexivity.
Qed.

Lemma filter_discussion_id_subset (root : node) (id : string) (set matching : jq) :
  filter_discussion_id selectorEngine root id set = JS.Done matching ->
  forall p, p ∈ matching -> p ∈ set.
Proof.
  unfold filter_discussion_id, options_with_id. intros Hdone p Hp.
  destruct (selector_safe id).
  - injection Hdone as <-. apply list_elem_of_filter in Hp. apply Hp.
  - destruct (selectorEngine id) as [test| |];
      unfold mbind, JS.outcome_bind in Hdone; try discriminate.
    injection Hdone as <-. apply list_elem_of_filter in Hp. apply Hp.
Qed.

(** What a [render] that returns has done: the content is new, and
    [setTopic] was called once, with some of the new option elements. *)
Lemma render_inversion (fuel : nat) (h : heap) (v v' : view) (r : jq) :
  render' fuel h v = JS.Done (r, v') ->
  exists topics_html target,
    renderCategoryMap' fuel h (category_map (course_settings v)) = JS.Done topics_html /\
    r = dollar_el /\
    let v1 := set_html' (topicTemplate (attributes (course_settings v)) topics_html) v in
    (forall p, p ∈ target -> p ∈ find_option false (el v1) dollar_el) /\
    v' = setTopic' target v1.
Proof.
  unfold render, render_with. intros Hr.
  destruct (renderCategoryMap' fuel h _) as [topics_html| |];
    unfold mbind, JS.outcome_bind in Hr; try discriminate.
  exists topics_html.
  destruct (JS.truthy _).
  - destruct (filter_discussion_id selectorEngine _ _ _) as [matching| |] eqn:Hmatching;
      try discriminate.
    injection Hr as <- <-. exists matching. repeat split.
    apply (filter_discussion_id_subset _ _ _ _ Hmatching).
  - injection Hr as <- <-. eexists. repeat split.
    intros p Hp. eapply subseteq_take; eassumption.
Qed.

(** As the source stands, [render] hands option elements to [setTopic],
    which looks for the selected option below them and finds none: the
    view is the view before with the new content. *)
Lemma render_keeps_view (fuel : nat) (h : heap) (v v' : view) (r : jq) :
  render' fuel h v = JS.Done (r, v') ->
  exists topics_html,
    renderCategoryMap' fuel h (category_map (course_settings v)) = JS.Done topics_html /\
    r = dollar_el /\
    v' = set_html' (topicTemplate (attributes (course_settings v)) topics_html) v.
Proof.
  intros Hr.
  destruct (render_inversion _ _ _ _ _ Hr) as (topics_html & target & Hhtml & -> & Htarget & ->).
  exists topics_html. split; [exact Hhtml|]. split; [reflexivity|].
  apply setTopic_options. intros p Hp. apply find_option_in_el. apply Htarget. exact Hp.
Qed.

Lemma render_keeps_topic (fuel : nat) (h : heap) (v v' : view) (r : jq) :
  render' fuel h v = JS.Done (r, v') ->
  current_topic v' = current_topic v /\ triggered v' = triggered v.
Proof.
  intros Hr. destruct (render_keeps_view _ _ _ _ _ Hr) as (topics_html & _ & _ & ->).
  split; reflexivity.
Qed.

Lemma setTopic_nothing (v : view) : setTopic' [] v = v.
Proof. apply setTopic_skips. reflexivity. Qed.


(** C5, as amended.  The current topic id and the display name change
    through [initialize], which assigns the id of its argument and leaves
    the display name, and through [setTopic], called as such or by
    [handleTopicEvent] with the target of the event, which changes them to
    the id and the full name of the selected option found below its target
    and only when that id is truthy; [render], [renderCategoryMap],
    [getCurrentTopicId] and [getFullTopicName] leave both as they are, and
    send no notification. *)
Theorem topic_changes_spec (fuel : nat) (h : heap) (op : operation) (v v' : view) :
  run' fuel h op v = JS.Done v' ->
  match op with
  | Initialize o => current_topic v' = (opt_topicId o, topicText v)
  | SetTopic target => topic_after_selection serializeHTML target v v'
  | HandleTopicEvent target => topic_after_selection serializeHTML [target] v v'
  | Render | RenderCategoryMap _ | GetCurrentTopicId | GetFullTopicName _ =>
      current_topic v' = current_topic v /\ triggered v' = triggered v
  end.
Proof.
  assert (Hselection : forall target, topic_after_selection serializeHTML target v
                                        (setTopic' target v)).
  { intros target. unfold topic_after_selection.
    destruct (JS.truthy (data_discussion_id (el v) (find_option true (el v) target))) eqn:Hid.
    - right. split; [reflexivity|]. rewrite setTopic_selects by exact Hid. reflexivity.
    - left. rewrite setTopic_skips by exact Hid. reflexivity. }
  destruct op as [o| |map|target|target| |topicElement]; cbn [run]; intros Hrun.
  - injection Hrun as <-. reflexivity.
  - destruct (render' fuel h v) as [[r w]| |] eqn:Hr;
      unfold mbind, JS.outcome_bind in Hrun; try discriminate.
    cbn [snd] in Hrun. injection Hrun as <-.
    apply (render_keeps_topic _ _ _ _ _ Hr).
  - destruct (renderCategoryMap' fuel h map); unfold_bind; try discriminate.
    injection Hrun as <-. split; reflexivity.
  - injection Hrun as <-. apply Hselection.
  - injection Hrun as <-. apply Hselection.
  - injection Hrun as <-. split; reflexivity.
  - injection Hrun as <-. split; reflexivity.
Qed.

End ViewFacts.

(** ** The properties on the sample course *)

Lemma week1_category_tree : category_tree Sample.course_heap 2%positive.
Proof.
  apply (category_tree_node _ _ Sample.week1_map); [reflexivity| |].
  - intros name Hin Hnone. cbn [children Sample.week1_map] in Hin.
    apply list_elem_of_singleton in Hin. subst name. discriminate Hnone.
  - intros name sub Hin Hnone _. cbn [children Sample.week1_map] in Hin.
    apply list_elem_of_singleton in Hin. subst name. discriminate Hnone.
Qed.

Lemma course_category_tree : category_tree Sample.course_heap 1%positive.
Proof.
  apply (category_tree_node _ _ Sample.course_map); [reflexivity| |].
  - intros name Hin Hnone. cbn [children Sample.course_map] in Hin.
    apply elem_of_cons in Hin. destruct Hin as [->|Hin]; [discriminate Hnone|].
    apply list_elem_of_singleton in Hin. subst name. exists 2%positive. reflexivity.
  - intros name sub Hin Hnone Hsub. cbn [children Sample.course_map] in Hin.
    apply elem_of_cons in Hin. destruct Hin as [->|Hin]; [discriminate Hnone|].
    apply list_elem_of_singleton in Hin. subst name.
    injection Hsub as <-. apply week1_category_tree.
Qed.

Lemma course_finite_tree : finite_tree Sample.course_heap 1%positive.
Proof.
  constructor. intros m name sub Hm Hsub.
  change (Some Sample.course_map = Some m) in Hm. injection Hm as <-.
  cbn [subcategories Sample.course_map] in Hsub.
  apply lookup_singleton_Some in Hsub. destruct Hsub as [_ <-].
  constructor. intros m name' sub Hm Hsub.
  change (Some Sample.week1_map = Some m) in Hm. injection Hm as <-.
  cbn [subcategories Sample.week1_map] in Hsub.
  rewrite lookup_empty in Hsub. discriminate.
Qed.

(** On the sample course [renderCategoryMap] returns the concatenation of
    the fragments of General and of Week 1. *)
Lemma renderCategoryMap_concatenates_witness :
  exists m n frags,
    Sample.course_heap !! 1%positive = Some m /\
    Forall2 (is_fragment Sample.entryTemplate Sample.categoryTemplate Sample.inherited Sample.course_heap m)
            (children m) frags /\
    forall fuel, n <= fuel ->
      renderCategoryMap Sample.entryTemplate Sample.categoryTemplate Sample.inherited fuel
        Sample.course_heap 1%positive = JS.Done (String.concat EmptyString frags).
Proof.
  apply (renderCategoryMap_concatenates Sample.entryTemplate Sample.categoryTemplate Sample.inherited).
  exact course_category_tree.
Defined.

(** On the sample course [renderCategoryMap] comes to its end. *)
Lemma renderCategoryMap_terminates_witness :
  exists n, forall fuel, n <= fuel ->
    renderCategoryMap Sample.entryTemplate Sample.categoryTemplate Sample.inherited fuel
      Sample.course_heap 1%positive <> JS.OutOfFuel.
Proof.
  apply (renderCategoryMap_terminates Sample.entryTemplate Sample.categoryTemplate Sample.inherited
           Sample.course_heap 1%positive).
  exact course_finite_tree.
Defined.

(** General is an entry and a subcategory of the clash map, and is rendered
    as the entry, also when no recursive call could come to its end. *)
Lemma entries_take_precedence_witness :
  renderChild Sample.entryTemplate Sample.categoryTemplate Sample.inherited (fun _ => JS.OutOfFuel)
    Sample.clash_map "General" =
  JS.Done "<option data-discussion-id='general'>General</option>".
Proof.
  apply (entries_take_precedence Sample.entryTemplate Sample.categoryTemplate Sample.inherited
           Sample.clash_heap Sample.clash_map "General" Sample.general 1%positive).
  - cbn [children Sample.clash_map]. apply list_elem_of_singleton. reflexivity.
  - reflexivity.
  - reflexivity.
Defined.

(** After the user picked Homework, [setTopic] on the select makes it the
    current topic and notifies once. *)
Lemma setTopic_spec_witness :
  let v' := setTopic Sample.serializeHTML [[0]] (Sample.blank Sample.picked_content) in
  currentTopicId v' = JS.Str "hw1" /\
  topicText v' = JS.Str "Week 1 / Homework" /\
  notified_once [[0; 1; 0]] (Sample.blank Sample.picked_content) v'.
Proof.
  apply (setTopic_spec Sample.serializeHTML [[0]] (Sample.blank Sample.picked_content)).
  reflexivity.
Defined.

(** [setTopic] on a select whose selected option has the id 0, as stated
    first: the option carries an id, yet the current topic is not that id. *)
Lemma setTopic_counterexample :
  ~ setTopic_as_stated Sample.serializeHTML [[0]]
      (Sample.with_topic (JS.Str "general") (JS.Str "General") Sample.zero_content).
Proof.
  intros [Hid _]. destruct Hid as [Hid _]; [discriminate|]. discriminate Hid.
Qed.

(** The selected option has the id 0: nothing changes. *)
Lemma setTopic_falsy_id_witness :
  let v := Sample.with_topic (JS.Str "general") (JS.Str "General") Sample.zero_content in
  data_discussion_id (el v) (find_option true (el v) [[0]]) = JS.Num 0 /\
  currentTopicId (setTopic Sample.serializeHTML [[0]] v) = JS.Str "general" /\
  topicText (setTopic Sample.serializeHTML [[0]] v) = JS.Str "General" /\
  triggered (setTopic Sample.serializeHTML [[0]] v) = [].
Proof.
  intros v. split; [reflexivity|].
  destruct (setTopic_falsy_id Sample.serializeHTML [[0]] v) as (Hid & Hname & Hsent & _).
  - discriminate.
  - reflexivity.
  - auto.
Defined.

(** The notification sent when the user picked Homework sees the new id and
    the new name. *)
Lemma notification_sees_new_topic_witness :
  exists n,
    triggered (setTopic Sample.serializeHTML [[0]] (Sample.blank Sample.picked_content)) = [n] /\
    event_name n = "thread:topic_change" /\
    event_arg n = [[0; 1; 0]] /\
    seen_topic_id n = JS.Str "hw1" /\
    seen_topic_name n = JS.Str "Week 1 / Homework".
Proof.
  eexists. split; [reflexivity|].
  apply (notification_sees_new_topic Sample.serializeHTML [[0]]
           (Sample.blank Sample.picked_content) _ _ eq_refl).
  apply list_elem_of_singleton. reflexivity.
Defined.

(** The option Label, in Inner, in Outer. *)
Lemma getFullTopicName_joins_labels_witness :
  getFullTopicName Sample.serializeHTML (Sample.blank Sample.nested_content)
    (Some [[0; 0; 0; 0]]) =
  JS.Str (String.concat " / " ["Outer"; "Inner"; "Label"]).
Proof.
  apply (getFullTopicName_joins_labels Sample.serializeHTML
           (Sample.blank Sample.nested_content) [0; 0; 0; 0]
           (OptionElement (Some "x") (JS.Str "x") true "Label")).
  reflexivity.
Defined.



(** [initialize] is not the handling of a change event and changes the
    current topic id. *)
Lemma topic_changes_counterexample :
  ~ topic_changes_as_stated Sample.entryTemplate Sample.categoryTemplate Sample.inherited
      Sample.selectorEngine Sample.serializeHTML Sample.parseHTML Sample.topicTemplate.
Proof.
  intros Hclaim.
  specialize (Hclaim 0 ∅ (Initialize (Options Sample.course_settings (JS.Str "hw1")))
                (Sample.blank []) _ eq_refl eq_refl).
  discriminate Hclaim.
Qed.

(** [render] run as an operation on a view that stores the id of
    Homework: the display name is not set. *)
Lemma topic_changes_spec_witness :
  current_topic
    (View Sample.course_settings (JS.Str "hw1") JS.Undefined true Sample.course_content []) =
  current_topic (Sample.with_topic (JS.Str "hw1") JS.Undefined []) /\
  triggered
    (View Sample.course_settings (JS.Str "hw1") JS.Undefined true Sample.course_content []) =
  triggered (Sample.with_topic (JS.Str "hw1") JS.Undefined []).
Proof.
  exact (topic_changes_spec Sample.entryTemplate Sample.categoryTemplate Sample.inherited
           Sample.selectorEngine Sample.serializeHTML Sample.parseHTML Sample.topicTemplate 3
           Sample.course_heap Render
           (Sample.with_topic (JS.Str "hw1") JS.Undefined []) _ eq_refl).
Defined.

(** ** More on rendering category maps *)

Section CategoryMapMore.

Variable entryTemplate : string -> JS.value -> JS.value -> string.
Variable categoryTemplate : string -> string -> string.
Variable inherited : string -> bool.

Local Abbreviation renderCategoryMap' := (renderCategoryMap entryTemplate categoryTemplate inherited).
Local Abbreviation renderChild' := (renderChild entryTemplate categoryTemplate inherited).
Local Abbreviation renderMap' := (renderMap entryTemplate categoryTemplate inherited).

Lemma finite_tree_ends (h : heap) (map : ref) :
  finite_tree h map ->
  exists n, forall fuel, n <= fuel -> renderCategoryMap' fuel h map <> JS.OutOfFuel.
Proof.
  intros Hfin. induction Hfin as [map _ IH].
  destruct (h !! map) as [m|] eqn:Hm.
  - destruct (children_terminate entryTemplate categoryTemplate inherited h m
                (fun name sub => IH m name sub eq_refl) (children m)) as [n Hn].
    exists (S n). intros [|fuel] Hle; [lia|].
    cbn [renderCategoryMap]. rewrite Hm. unfold renderMap.
    specialize (Hn fuel ltac:(lia)).
    destruct (JS.map_each _ (children m)); unfold_bind; congruence.
  - exists 1. intros [|fuel] Hle; [lia|].
    cbn [renderCategoryMap]. rewrite Hm. congruence.
Qed.

Lemma map_each_done_elem {A B} (f : A -> JS.outcome B) (l : list A) (bs : list B) :
  JS.map_each f l = JS.Done bs -> forall a, a ∈ l -> exists b, f a = JS.Done b.
Proof.
  revert bs. induction l as [|a l IH]; intros bs Hdone a' Hin.
  - apply elem_of_nil in Hin. contradiction.
  - cbn [JS.map_each] in Hdone.
    destruct (f a) as [b| |] eqn:Ha; unfold_bind; try discriminate.
    destruct (JS.map_each f l) as [bs'| |]; unfold_bind; try discriminate.
    apply elem_of_cons in Hin. destruct Hin as [->|Hin]; [eauto|].
    eapply IH; [reflexivity|assumption].
Qed.

Lemma done_renderable (fuel : nat) :
  forall (h : heap) (map : ref) (out : string),
    renderCategoryMap' fuel h map = JS.Done out -> renderable inherited h map.
Proof.
  induction fuel as [|fuel IH]; intros h map out Hdone; [discriminate|].
  cbn [renderCategoryMap] in Hdone.
  destruct (h !! map) as [m|] eqn:Hm; [|discriminate].
  unfold renderMap in Hdone.
  destruct (JS.map_each _ (children m)) as [frags| |] eqn:Hfrags;
    unfold_bind; try discriminate.
  apply (renderable_node inherited h map m Hm).
  - intros name Hin He Hs.
    destruct (map_each_done_elem _ _ _ Hfrags name Hin) as [frag Hfrag].
    unfold renderChild in Hfrag. rewrite He, Hs in Hfrag.
    destruct (inherited name); [reflexivity|discriminate].
  - intros name sub Hin He Hs.
    destruct (map_each_done_elem _ _ _ Hfrags name Hin) as [frag Hfrag].
    unfold renderChild in Hfrag. rewrite He, Hs in Hfrag.
    destruct (renderCategoryMap' fuel h sub) as [html| |] eqn:Hhtml;
      unfold mbind, JS.outcome_bind in Hfrag; try discriminate.
    eapply IH. eassumption.
Qed.

Lemma renderable_children (h : heap) (m : category) :
  (forall name sub, name ∈ children m -> entries m !! name = None ->
     subcategories m !! name = Some sub ->
     exists n html, forall fuel, n <= fuel ->
       renderCategoryMap' fuel h sub = JS.Done html) ->
  (forall name, name ∈ children m -> entries m !! name = None ->
     subcategories m !! name = None -> inherited name = true) ->
  forall names : list string,
    (forall name, name ∈ names -> name ∈ children m) ->
    exists n frags, forall fuel, n <= fuel ->
      JS.map_each (renderChild' (renderCategoryMap' fuel h) m) names = JS.Done frags.
Proof.
  intros Hsub Hinherited names. induction names as [|name names IH]; intros Hin.
  - exists 0, []. reflexivity.
  - destruct IH as (n & frags & Hn).
    { intros name' H'. apply Hin. now right. }
    assert (Hname : exists n' frag, forall fuel, n' <= fuel ->
              renderChild' (renderCategoryMap' fuel h) m name = JS.Done frag).
    { unfold renderChild.
      destruct (entries m !! name) as [e|] eqn:He; [exists 0; eexists; reflexivity|].
      destruct (subcategories m !! name) as [sub|] eqn:Hs.
      - destruct (Hsub name sub) as (n' & html & Hn'); [apply Hin; left|assumption..|].
        exists n', (categoryTemplate name html).
        intros fuel Hle. rewrite (Hn' fuel Hle). reflexivity.
      - rewrite (Hinherited name); [exists 0; eexists; reflexivity|apply Hin; left|assumption..]. }
    destruct Hname as (n' & frag & Hn').
    exists (n `max` n'), (frag :: frags).
    intros fuel Hle. cbn [JS.map_each].
    rewrite Hn' by lia. rewrite Hn by lia. reflexivity.
Qed.

Lemma renderable_renders (h : heap) (map : ref) :
  renderable inherited h map ->
  exists n out, forall fuel, n <= fuel -> renderCategoryMap' fuel h map = JS.Done out.
Proof.
  intros Htree. induction Htree as [map m Hm Hinherited _ IH].
  destruct (renderable_children h m IH Hinherited (children m)) as (n & frags & Hn); [auto|].
  exists (S n), (JS.join frags). intros [|fuel] Hle; [lia|].
  cbn [renderCategoryMap]. rewrite Hm. unfold renderMap.
  rewrite Hn by lia. reflexivity.
Qed.

(** X1.  [renderCategoryMap] returns a string on exactly the maps that can
    be rendered: the argument is an object, every child that is neither an
    entry nor a subcategory is a name that every object inherits, and the
    subcategories of the children that are no entries can be rendered in
    turn. *)
Theorem renderCategoryMap_returns_iff (h : heap) (map : ref) :
  renderable inherited h map <->
  exists fuel out, renderCategoryMap' fuel h map = JS.Done out.
Proof.
  split.
  - intros Htree. destruct (renderable_renders h map Htree) as (n & out & Hn).
    exists n, out. apply Hn. lia.
  - intros (fuel & out & Hdone). eapply done_renderable. eassumption.
Qed.

(** X2.  A child name that is neither a key of [entries] nor a key of
    [subcategories] nor a name that every object inherits makes
    [renderCategoryMap] throw: on a map whose chains of subcategories are
    finite the call ends, and it ends by throwing. *)
Theorem renderCategoryMap_throws (h : heap) (map : ref) (m : category) (name : string) :
  finite_tree h map ->
  h !! map = Some m ->
  name ∈ children m ->
  entries m !! name = None ->
  subcategories m !! name = None ->
  inherited name = false ->
  exists n, forall fuel, n <= fuel -> renderCategoryMap' fuel h map = JS.Throw.
Proof.
  intros Hfin Hm Hin He Hs Hown.
  destruct (finite_tree_ends h map Hfin) as [n Hn].
  exists n. intros fuel Hle. specialize (Hn fuel Hle).
  destruct (renderCategoryMap' fuel h map) as [out| |] eqn:Hout; [|reflexivity|congruence].
  exfalso. apply done_renderable in Hout.
  destruct Hout as [map m' Hm' Hinherited _].
  rewrite Hm in Hm'. injection Hm' as <-.
  rewrite (Hinherited name Hin He Hs) in Hown. discriminate.
Qed.

Lemma map_each_ext_in {A B} (f g : A -> JS.outcome B) (l : list A) :
  (forall a, a ∈ l -> f a = g a) -> JS.map_each f l = JS.map_each g l.
Proof.
  induction l as [|a l IH]; intros Hfg; [reflexivity|].
  cbn [JS.map_each]. rewrite (Hfg a) by left. rewrite IH; [reflexivity|].
  intros a' Hin. apply Hfg. now right.
Qed.

(** X3.  [renderCategoryMap] reads [entries] and [subcategories] at the
    names listed in [children] only, and [subcategories] only at the names
    that are no entry: two maps that agree there render alike, whatever
    other keys they hold. *)
Theorem renderCategoryMap_reads_children_only (fuel : nat) (h : heap)
    (map1 map2 : ref) (m1 m2 : category) :
  h !! map1 = Some m1 ->
  h !! map2 = Some m2 ->
  same_on_children m1 m2 ->
  renderCategoryMap' fuel h map1 = renderCategoryMap' fuel h map2.
Proof.
  intros H1 H2 [Hchildren Hkeys]. destruct fuel as [|fuel]; [reflexivity|].
  cbn [renderCategoryMap]. rewrite H1, H2. unfold renderMap.
  rewrite <- Hchildren.
  rewrite (map_each_ext_in _ (renderChild' (renderCategoryMap' fuel h) m2)); [reflexivity|].
  intros name Hin. destruct (Hkeys name Hin) as [He Hs].
  unfold renderChild. rewrite <- He.
  destruct (entries m1 !! name); [reflexivity|].
  rewrite <- Hs by reflexivity. reflexivity.
Qed.

Lemma string_app_assoc (a b c : string) : (a +:+ b) +:+ c = a +:+ b +:+ c.
Proof.
  induction a as [|x a IH]; [reflexivity|].
  change (String x ((a +:+ b) +:+ c) = String x (a +:+ b +:+ c)). f_equal. exact IH.
Qed.

Lemma join_app (xs ys : list string) :
  JS.join (xs ++ ys) = JS.join xs +:+ JS.join ys.
Proof.
  induction xs as [|x xs IH]; [reflexivity|].
  cbn [app]. unfold JS.join in *. cbn [foldr]. rewrite IH.
  symmetry. apply string_app_assoc.
Qed.

Lemma map_each_app {A B} (f : A -> JS.outcome B) (l1 l2 : list A) :
  JS.map_each f (l1 ++ l2) =
  (xs ← JS.map_each f l1; ys ← JS.map_each f l2; JS.Done (xs ++ ys)).
Proof.
  induction l1 as [|a l1 IH].
  - cbn [app JS.map_each]. destruct (JS.map_each f l2); reflexivity.
  - cbn [app JS.map_each]. rewrite IH.
    destruct (f a); [|reflexivity..].
    destruct (JS.map_each f l1); [|reflexivity..].
    destruct (JS.map_each f l2); reflexivity.
Qed.

(** X4.  Rendering follows the concatenation of [children]: when the map
    with the first part of the children renders to [x] and the map with
    the rest renders to [y], the whole map renders to [x] followed by
    [y]. *)
Theorem renderCategoryMap_app (fuel : nat) (h : heap) (whole first second : ref)
    (m : category) (l1 l2 : list string) (x y : string) :
  h !! whole = Some m ->
  children m = l1 ++ l2 ->
  h !! first = Some (with_children l1 m) ->
  h !! second = Some (with_children l2 m) ->
  renderCategoryMap' fuel h first = JS.Done x ->
  renderCategoryMap' fuel h second = JS.Done y ->
  renderCategoryMap' fuel h whole = JS.Done (x +:+ y).
Proof.
  intros Hwhole Hchildren Hfirst Hsecond Hx Hy.
  destruct fuel as [|fuel]; [discriminate|].
  cbn [renderCategoryMap] in *. rewrite Hfirst in Hx. rewrite Hsecond in Hy.
  rewrite Hwhole. unfold renderMap in *. cbn [children with_children] in Hx, Hy.
  change (renderChild' (renderCategoryMap' fuel h) (with_children l1 m))
    with (renderChild' (renderCategoryMap' fuel h) m) in Hx.
  change (renderChild' (renderCategoryMap' fuel h) (with_children l2 m))
    with (renderChild' (renderCategoryMap' fuel h) m) in Hy.
  rewrite Hchildren, map_each_app.
  destruct (JS.map_each _ l1) as [xs| |]; try discriminate.
  destruct (JS.map_each _ l2) as [ys| |]; try discriminate.
  unfold mbind, JS.outcome_bind in *.
  injection Hx as <-. injection Hy as <-. rewrite join_app. reflexivity.
Qed.

End CategoryMapMore.

(** ** More on the view's operations *)

Section ViewMore.

Variable entryTemplate : string -> JS.value -> JS.value -> string.
Variable categoryTemplate : string -> string -> string.
Variable inherited : string -> bool.
Variable selectorEngine : string -> JS.outcome (node -> path -> bool).
Variable serializeHTML : list node -> string.
Variable parseHTML : string -> list node.
Variable topicTemplate : gmap string JS.value -> string -> string.

Local Abbreviation renderCategoryMap' := (renderCategoryMap entryTemplate categoryTemplate inherited).
Local Abbreviation getFullTopicName' := (getFullTopicName serializeHTML).
Local Abbreviation setTopic' := (setTopic serializeHTML).
Local Abbreviation set_html' := (set_html parseHTML).
Local Abbreviation render' :=
  (render entryTemplate categoryTemplate inherited selectorEngine serializeHTML parseHTML topicTemplate).
Local Abbreviation run' :=
  (run entryTemplate categoryTemplate inherited selectorEngine serializeHTML parseHTML topicTemplate).

Lemma insert_in_order_elem (p : path) (l : jq) (q : path) :
  q ∈ insert_in_order p l -> q = p \/ q ∈ l.
Proof.
  induction l as [|a l IH]; cbn [insert_in_order]; intros Hq.
  - apply list_elem_of_singleton in Hq. auto.
  - destruct (path_compare p a).
    + auto.
    + apply elem_of_cons in Hq. destruct Hq as [->|Hq]; auto.
    + apply elem_of_cons in Hq. destruct Hq as [->|Hq]; [right; left|].
      destruct (IH Hq) as [->|Hl]; [auto|right; now right].
Qed.

Lemma uniqueSort_elem (l : jq) (q : path) : q ∈ uniqueSort l -> q ∈ l.
Proof.
  unfold uniqueSort. induction l as [|p l IH]; cbn [foldr]; intros Hq; [exact Hq|].
  apply insert_in_order_elem in Hq. destruct Hq as [->|Hq]; [left|right; auto].
Qed.

(** ['option:selected'] finds selected option elements only. *)
Lemma find_option_selected (root : node) (context : jq) (q : path) :
  q ∈ find_option true root context ->
  exists o, option_at root q = Some o /\ selected o = true.
Proof.
  unfold find_option. cbv zeta. intros Hq.
  assert (Hsel : is_selected root q = true).
  { destruct (decide (1 < length context)); [apply uniqueSort_elem in Hq|];
      apply list_elem_of_bind in Hq; destruct Hq as (p & Hq & _);
      (destruct (node_at root p); [|apply elem_of_nil in Hq; contradiction]);
      apply list_elem_of_filter in Hq; destruct Hq as [[Hf|Hs] _];
      try discriminate; apply Is_true_true; exact Hs. }
  unfold is_selected in Hsel. destruct (option_at root q) as [o|]; [|discriminate].
  exists o. auto.
Qed.

Lemma setTopic_settings (target : jq) (v : view) :
  course_settings (setTopic' target v) = course_settings v /\
  handleTopicEvent_bound (setTopic' target v) = handleTopicEvent_bound v.
Proof. unfold setTopic. destruct (JS.truthy _); split; reflexivity. Qed.

Lemma setTopic_frame (target : jq) (v : view) :
  content (setTopic' target v) = content v /\
  course_settings (setTopic' target v) = course_settings v /\
  handleTopicEvent_bound (setTopic' target v) = handleTopicEvent_bound v /\
  find_option true (el (setTopic' target v)) target = find_option true (el v) target.
Proof.
  destruct (setTopic_settings target v) as [Hsettings Hbound].
  repeat split; try assumption.
  - apply setTopic_content.
  - unfold el. rewrite setTopic_content. reflexivity.
Qed.

(** X5.  When [setTopic] changes the view, the first element of the
    jQuery object it found is a selected option element with a truthy
    discussion id; that id is the new current topic id, and the new display
    name is a string: the content of that option behind the labels of the
    option groups found around the selected options. *)
Theorem setTopic_stores (target : jq) (v : view) :
  let option := find_option true (el v) target in
  setTopic' target v = v \/
  exists p o,
    head option = Some p /\
    option_at (el v) p = Some o /\
    selected o = true /\
    JS.truthy (discussion_id_data o) = true /\
    currentTopicId (setTopic' target v) = discussion_id_data o /\
    topicText (setTopic' target v) =
      JS.Str (String.concat " / "
                (reverse ((fun q => JS.to_string (attr_label (el v) q))
                            <$> parents_optgroup (el v) option)
                 ++ [inner_html o])).
Proof.
  intros option.
  destruct (JS.truthy (data_discussion_id (el v) option)) eqn:Hid;
    [right|left; apply setTopic_skips; exact Hid].
  rewrite setTopic_selects by exact Hid. fold option.
  destruct option as [|p rest] eqn:Hoption; [discriminate Hid|].
  destruct (find_option_selected (el v) target p) as (o & Ho & Hsel).
  { fold option. rewrite Hoption. left. }
  exists p, o. cbn [data_discussion_id] in *. rewrite Ho in *.
  repeat split; try assumption.
  cbn [topicText trigger set_currentTopicId set_topicText].
  unfold getFullTopicName, html.
  unfold option_at in Ho.
  destruct (node_at (el v) p) as [[o'| |]|]; try discriminate.
  injection Ho as ->. apply prefix_labels.
Qed.

(** X6.  [setTopic] does not compare the selected topic with the current
    one: called again with the same target it leaves the current topic as
    the first call made it, and when the selected option has a truthy id it
    sends the same notification a second time. *)
Theorem setTopic_twice (target : jq) (v : view) :
  let v1 := setTopic' target v in
  let v2 := setTopic' target v1 in
  current_topic v2 = current_topic v1 /\
  (JS.truthy (data_discussion_id (el v) (find_option true (el v) target)) = true ->
   exists n, triggered v1 = triggered v ++ [n] /\ triggered v2 = triggered v ++ [n; n]).
Proof.
  intros v1 v2. subst v2 v1.
  destruct (JS.truthy (data_discussion_id (el v) (find_option true (el v) target))) eqn:Hid.
  - rewrite (setTopic_selects serializeHTML target v Hid).
    match goal with |- context [setTopic' target ?w] =>
      rewrite (setTopic_selects serializeHTML target w Hid) end.
    split; [reflexivity|]. intros _. eexists. split; [reflexivity|].
    cbn [triggered trigger set_currentTopicId set_topicText].
    rewrite <- app_assoc. reflexivity.
  - rewrite !(setTopic_skips serializeHTML target v Hid).
    split; [reflexivity|discriminate].
Qed.

Lemma setTopic_sends (target : jq) (v : view) :
  exists sent,
    triggered (setTopic' target v) = triggered v ++ sent /\
    length sent <= 1 /\
    Forall topic_change sent.
Proof.
  destruct (JS.truthy (data_discussion_id (el v) (find_option true (el v) target))) eqn:Hid.
  - rewrite setTopic_selects by exact Hid.
    eexists [_]. split; [reflexivity|]. split; [reflexivity|].
    constructor; [|constructor]. repeat split; [exact Hid|].
    cbn [event_arg]. intros Hnil. rewrite Hnil in Hid. discriminate Hid.
  - rewrite setTopic_skips by exact Hid.
    exists []. rewrite app_nil_r. split; [reflexivity|]. split; [cbn; lia|constructor].
Qed.

Lemma setTopic_keeps_truthy (target : jq) (v : view) :
  JS.truthy (currentTopicId v) = true ->
  JS.truthy (currentTopicId (setTopic' target v)) = true.
Proof.
  intros Hv.
  destruct (JS.truthy (data_discussion_id (el v) (find_option true (el v) target))) eqn:Hid.
  - rewrite setTopic_selects by exact Hid. exact Hid.
  - rewrite setTopic_skips by exact Hid. exact Hv.
Qed.

(** What [render] comes to: the view with the new content, handed to
    [setTopic] once. *)
Lemma render_done (fuel : nat) (h : heap) (v v' : view) (r : jq) :
  render' fuel h v = JS.Done (r, v') ->
  exists topics_html target,
    renderCategoryMap' fuel h (category_map (course_settings v)) = JS.Done topics_html /\
    r = dollar_el /\
    v' = setTopic' target
           (set_html' (topicTemplate (attributes (course_settings v)) topics_html) v).
Proof.
  intros Hr.
  destruct (render_inversion entryTemplate categoryTemplate inherited selectorEngine
              serializeHTML parseHTML topicTemplate _ _ _ _ _ Hr)
    as (topics_html & target & Hhtml & -> & _ & ->).
  exists topics_html, target. repeat split. exact Hhtml.
Qed.

(** X7.  Every operation of the view sends at most one notification and
    takes none back; a notification it sends is a [thread:topic_change]
    whose argument is not empty and whose listeners see a truthy current
    topic id. *)
Theorem operations_notify (fuel : nat) (h : heap) (op : operation) (v v' : view) :
  run' fuel h op v = JS.Done v' ->
  exists sent,
    triggered v' = triggered v ++ sent /\
    length sent <= 1 /\
    Forall topic_change sent.
Proof.
  assert (Hnone : forall w : view, triggered w = triggered v ->
            exists sent, triggered w = triggered v ++ sent /\
                         length sent <= 1 /\ Forall topic_change sent).
  { intros w Hw. exists []. rewrite app_nil_r. split; [exact Hw|]. split; [cbn; lia|constructor]. }
  destruct op as [o| |map|target|target| |topicElement]; cbn [run]; intros Hrun.
  - injection Hrun as <-. apply Hnone. reflexivity.
  - destruct (render' fuel h v) as [[r w]| |] eqn:Hr;
      unfold mbind, JS.outcome_bind in Hrun; try discriminate.
    cbn [snd] in Hrun. injection Hrun as <-.
    destruct (render_done _ _ _ _ _ Hr) as (topics_html & target & _ & _ & ->).
    apply (setTopic_sends target (set_html' _ v)).
  - destruct (renderCategoryMap' fuel h map); unfold mbind, JS.outcome_bind in Hrun;
      try discriminate.
    injection Hrun as <-. apply Hnone. reflexivity.
  - injection Hrun as <-. apply setTopic_sends.
  - injection Hrun as <-. apply setTopic_sends.
  - injection Hrun as <-. apply Hnone. reflexivity.
  - injection Hrun as <-. apply Hnone. reflexivity.
Qed.

(** X8.  Only [initialize] can store a falsy topic id: once the current
    topic id is truthy, it is truthy after every other operation. *)
Theorem topic_id_stays_truthy (fuel : nat) (h : heap) (op : operation) (v v' : view) :
  run' fuel h op v = JS.Done v' ->
  (forall o, op <> Initialize o) ->
  JS.truthy (currentTopicId v) = true ->
  JS.truthy (currentTopicId v') = true.
Proof.
  intros Hrun Hop Hv.
  destruct op as [o| |map|target|target| |topicElement]; cbn [run] in Hrun.
  - destruct (Hop o). reflexivity.
  - destruct (render' fuel h v) as [[r w]| |] eqn:Hr;
      unfold mbind, JS.outcome_bind in Hrun; try discriminate.
    cbn [snd] in Hrun. injection Hrun as <-.
    destruct (render_done _ _ _ _ _ Hr) as (topics_html & target & _ & _ & ->).
    apply setTopic_keeps_truthy. exact Hv.
  - destruct (renderCategoryMap' fuel h map); unfold mbind, JS.outcome_bind in Hrun;
      try discriminate.
    injection Hrun as <-. exact Hv.
  - injection Hrun as <-. apply setTopic_keeps_truthy. exact Hv.
  - injection Hrun as <-. apply setTopic_keeps_truthy. exact Hv.
  - injection Hrun as <-. exact Hv.
  - injection Hrun as <-. exact Hv.
Qed.

(** X9.  [render] builds the content of the root element from the settings
    and the category maps alone: rendering again returns again and gives
    the same content, and the settings are untouched. *)
Theorem render_again (fuel : nat) (h : heap) (v v' : view) (r : jq) :
  render' fuel h v = JS.Done (r, v') ->
  course_settings v' = course_settings v /\
  exists v'', render' fuel h v' = JS.Done (r, v'') /\ content v'' = content v'.
Proof.
  intros Hr.
  destruct (render_keeps_view entryTemplate categoryTemplate inherited selectorEngine
              serializeHTML parseHTML topicTemplate _ _ _ _ _ Hr)
    as (topics_html & Hhtml & -> & ->).
  split; [reflexivity|].
  unfold render, render_with in Hr |- *. cbn [course_settings set_html] in *.
  rewrite Hhtml in Hr |- *. unfold mbind, JS.outcome_bind in Hr |- *.
  change (getCurrentTopicId (set_html' _ (set_html' _ v))) with (currentTopicId v).
  change (getCurrentTopicId (set_html' _ v)) with (currentTopicId v) in Hr.
  destruct (JS.truthy (currentTopicId v)).
  - change (el (set_html' _ (set_html' ?m v))) with (el (set_html' m v)).
    destruct (filter_discussion_id selectorEngine _ _ _) as [matching| |]; try discriminate.
    eexists. split; [reflexivity|]. rewrite setTopic_content. reflexivity.
  - eexists. split; [reflexivity|]. rewrite setTopic_content. reflexivity.
Qed.

(** X10.  [setTopic] looks for the selected option below the elements of
    its target: called with option elements themselves, selected or not, it
    finds none and leaves the view as it is. *)
Theorem setTopic_on_options (target : jq) (v : view) :
  (forall p, p ∈ target -> is_Some (option_at (el v) p)) ->
  setTopic' target v = v.
Proof. apply setTopic_options. Qed.

(** X11.  As [render] hands option elements to [setTopic], it selects no
    topic: what it returns is the root element, and the view afterwards is
    the view before with the new content; the current topic id, the display
    name and the notifications sent are as they were. *)
Theorem render_selects_nothing (fuel : nat) (h : heap) (v v' : view) (r : jq) :
  render' fuel h v = JS.Done (r, v') ->
  exists topics_html,
    renderCategoryMap' fuel h (category_map (course_settings v)) = JS.Done topics_html /\
    r = dollar_el /\
    v' = set_html' (topicTemplate (attributes (course_settings v)) topics_html) v.
Proof.
  apply (render_keeps_view entryTemplate categoryTemplate inherited selectorEngine
           serializeHTML parseHTML topicTemplate).
Qed.

End ViewMore.

(** ** The further properties on the cases *)

Lemma ghost_finite_tree : finite_tree Cases.ghost_heap 1%positive.
Proof.
  constructor. intros m name sub Hm Hsub.
  change (Some Cases.ghost_map = Some m) in Hm. injection Hm as <-.
  cbn [subcategories Cases.ghost_map] in Hsub.
  rewrite lookup_empty in Hsub. discriminate.
Qed.

(** The map that lists Ghost throws. *)
Lemma renderCategoryMap_throws_witness :
  exists n, forall fuel, n <= fuel ->
    renderCategoryMap Sample.entryTemplate Sample.categoryTemplate Sample.inherited fuel
      Cases.ghost_heap 1%positive = JS.Throw.
Proof.
  apply (renderCategoryMap_throws Sample.entryTemplate Sample.categoryTemplate Sample.inherited
           Cases.ghost_heap 1%positive Cases.ghost_map "Ghost").
  - exact ghost_finite_tree.
  - reflexivity.
  - cbn [children Cases.ghost_map]. right. left.
  - reflexivity.
  - reflexivity.
  - reflexivity.
Defined.

Lemma padded_same_on_children : same_on_children Sample.course_map Cases.padded_map.
Proof.
  split; [reflexivity|]. intros name Hin. cbn [children Sample.course_map] in Hin.
  apply elem_of_cons in Hin. destruct Hin as [->|Hin]; [split; [reflexivity|discriminate]|].
  apply list_elem_of_singleton in Hin. subst name. split; reflexivity.
Qed.

(** The course renders the same with an entry and a subcategory that
    [children] does not list. *)
Lemma renderCategoryMap_reads_children_only_witness :
  renderCategoryMap Sample.entryTemplate Sample.categoryTemplate Sample.inherited 3 Cases.library 1%positive =
  renderCategoryMap Sample.entryTemplate Sample.categoryTemplate Sample.inherited 3 Cases.library 3%positive.
Proof.
  apply (renderCategoryMap_reads_children_only Sample.entryTemplate Sample.categoryTemplate Sample.inherited
           3 Cases.library 1%positive 3%positive Sample.course_map Cases.padded_map).
  - reflexivity.
  - reflexivity.
  - exact padded_same_on_children.
Defined.

(** The course renders to General followed by Week 1. *)
Lemma renderCategoryMap_app_witness :
  renderCategoryMap Sample.entryTemplate Sample.categoryTemplate Sample.inherited 3 Cases.library 1%positive =
  JS.Done ("<option data-discussion-id='general'>General</option>" +:+
           "<optgroup label='Week 1'><option data-discussion-id='hw1'>Homework</option></optgroup>").
Proof.
  apply (renderCategoryMap_app Sample.entryTemplate Sample.categoryTemplate Sample.inherited
           3 Cases.library 1%positive 4%positive 5%positive Sample.course_map
           ["General"] ["Week 1"]); reflexivity.
Defined.

(** Handling the same change event twice notifies twice. *)
Lemma setTopic_twice_witness :
  exists n,
    triggered (setTopic Sample.serializeHTML [[0]] Cases.picked) = [] ++ [n] /\
    triggered (setTopic Sample.serializeHTML [[0]]
                 (setTopic Sample.serializeHTML [[0]] Cases.picked)) = [] ++ [n; n].
Proof.
  apply (setTopic_twice Sample.serializeHTML [[0]] Cases.picked). reflexivity.
Defined.

(** The change event on the select of the picked course sends one
    notification. *)
Lemma operations_notify_witness :
  exists sent,
    triggered (handleTopicEvent Sample.serializeHTML [0] Cases.picked) = [] ++ sent /\
    length sent <= 1 /\
    Forall topic_change sent.
Proof.
  exact (operations_notify Sample.entryTemplate Sample.categoryTemplate Sample.inherited
           Sample.selectorEngine Sample.serializeHTML Sample.parseHTML Sample.topicTemplate 0 ∅
           (HandleTopicEvent [0]) Cases.picked _ eq_refl).
Defined.

(** A change event on a select whose selected option has the id 0 leaves
    the truthy id of General. *)
Lemma topic_id_stays_truthy_witness :
  JS.truthy
    (currentTopicId
       (handleTopicEvent Sample.serializeHTML [0]
          (Sample.with_topic (JS.Str "general") (JS.Str "General") Sample.zero_content)))
  = true.
Proof.
  apply (topic_id_stays_truthy Sample.entryTemplate Sample.categoryTemplate Sample.inherited
           Sample.selectorEngine Sample.serializeHTML Sample.parseHTML Sample.topicTemplate 0 ∅
           (HandleTopicEvent [0])
           (Sample.with_topic (JS.Str "general") (JS.Str "General") Sample.zero_content)).
  - reflexivity.
  - intros o. discriminate.
  - reflexivity.
Defined.

(** Rendering the sample course a second time. *)
Lemma render_again_witness :
  exists v'',
    render Sample.entryTemplate Sample.categoryTemplate Sample.inherited Sample.selectorEngine Sample.serializeHTML
      Sample.parseHTML Sample.topicTemplate 3 Sample.course_heap Cases.rendered =
    JS.Done (dollar_el, v'') /\
    content v'' = content Cases.rendered.
Proof.
  apply (render_again Sample.entryTemplate Sample.categoryTemplate Sample.inherited Sample.selectorEngine Sample.serializeHTML
           Sample.parseHTML Sample.topicTemplate 3 Sample.course_heap
           (Sample.blank []) Cases.rendered dollar_el).
  reflexivity.
Defined.

(** [setTopic] with the selected option Homework itself. *)
Lemma setTopic_on_options_witness :
  setTopic Sample.serializeHTML [[0; 1; 0]] Cases.picked = Cases.picked.
Proof.
  apply (setTopic_on_options Sample.serializeHTML [[0; 1; 0]] Cases.picked).
  intros p Hp. apply list_elem_of_singleton in Hp. subst p.
  exists (Sample.homework_option true). reflexivity.
Defined.

(** Rendering the sample course with no stored id: no topic is current
    afterwards. *)
Lemma render_selects_nothing_witness :
  exists topics_html,
    renderCategoryMap Sample.entryTemplate Sample.categoryTemplate Sample.inherited 3 Sample.course_heap
      (category_map (course_settings (Sample.blank []))) = JS.Done topics_html /\
    dollar_el = dollar_el /\
    Cases.rendered =
      set_html Sample.parseHTML
        (Sample.topicTemplate (attributes (course_settings (Sample.blank []))) topics_html)
        (Sample.blank []).
Proof.
  apply (render_selects_nothing Sample.entryTemplate Sample.categoryTemplate Sample.inherited
           Sample.selectorEngine Sample.serializeHTML Sample.parseHTML Sample.topicTemplate 3 Sample.course_heap
           (Sample.blank []) Cases.rendered dollar_el).
  reflexivity.
Defined.
